(** * example_ncbi: the call-rate limiter, the esearch response parser,
      the remote lookup and the report formatting

    A shallow embedding of [example_ncbi.py].  Python values are modelled
    as follows.

    - [str] is [string]; [int] is [Z]; [list<int>] is [list Z].  What the
      program does with a text that depends on its characters one by one
      (the builtin [int], the methods [split] and [strip]) is modelled for
      ASCII text: the parser takes [int] as a parameter, and a theorem that
      says what [split] and [strip] make of a text it does not fix assumes
      the text ASCII.
    - A [float] holding a time or a duration is a rational ([Q]): the
      arithmetic of the limiter is exact in this model, rounding is not
      represented.
    - The outside world (the clock behind [time.time] and [time.sleep],
      the network behind [requests.get]) is a type [World] threaded
      through every effectful function; its operations are the fields of
      the classes [Clock] and [Network].
    - A call that may raise returns a [result]: [Ok v] or [Raise e].
    - The tree that [lxml.etree.fromstring] returns is an [element]. *)

From Stdlib Require Import ZArith QArith Lqa Lia Bool List String Ascii.
From Stdlib Require Import DecimalString.
From Stdlib Require DecimalPos DecimalZ.
Import ListNotations.

Local Open Scope string_scope.
Local Open Scope Z_scope.

(* ================================================================== *)
(** ** Python values and builtins *)

Module Py.

(** The exception classes this program meets.  [LookupError] is the
    base class of [IndexError] and [KeyError]; [ValueError] and
    [TypeError] derive from [Exception] directly. *)
Inductive exn_class : Type :=
| ValueError
| TypeError
| LookupError
| IndexError
| KeyError
| OtherError (name : string).

Record exn : Type := mk_exn { exn_type : exn_class; exn_message : string }.

(** [isinstance(e, cls)] on the classes above. *)
Definition isinstance (e : exn) (cls : exn_class) : bool :=
  match exn_type e, cls with
  | ValueError, ValueError => true
  | TypeError, TypeError => true
  | LookupError, LookupError => true
  | IndexError, (IndexError | LookupError) => true
  | KeyError, (KeyError | LookupError) => true
  | OtherError a, OtherError b => String.eqb a b
  | _, _ => false
  end.

Inductive result (A : Type) : Type :=
| Ok (v : A)
| Raise (e : exn).
Arguments Ok {A} v.
Arguments Raise {A} e.

Definition returned {A} (r : result A) : bool :=
  match r with Ok _ => true | Raise _ => false end.

(** *** [int(text)] *)

(** Whitespace that [int] skips around the literal, in ASCII text. *)
Definition is_space (c : ascii) : bool :=
  match nat_of_ascii c with
  | 32%nat | 9%nat | 10%nat | 11%nat | 12%nat | 13%nat => true
  | _ => false
  end.

Definition digit_value (c : ascii) : option Z :=
  let n := Z.of_nat (nat_of_ascii c) in
  if (48 <=? n) && (n <=? 57) then Some (n - 48) else None.

Fixpoint lstrip (s : string) : string :=
  match s with
  | String c rest => if is_space c then lstrip rest else s
  | EmptyString => s
  end.

Fixpoint all_space (s : string) : bool :=
  match s with
  | String c rest => is_space c && all_space rest
  | EmptyString => true
  end.

(** The digits after the first one: a digit, or one underscore followed
    by a digit; then only whitespace up to the end of the text. *)
Fixpoint more_digits (acc : Z) (s : string) : option Z :=
  match s with
  | EmptyString => Some acc
  | String c rest =>
      match digit_value c with
      | Some d => more_digits (10 * acc + d) rest
      | None =>
          if Ascii.eqb c "_"%char then
            match rest with
            | String c' rest' =>
                match digit_value c' with
                | Some d => more_digits (10 * acc + d) rest'
                | None => None
                end
            | EmptyString => None
            end
          else if all_space s then Some acc else None
      end
  end.

Definition unsigned_literal (s : string) : option Z :=
  match s with
  | String c rest =>
      match digit_value c with
      | Some d => more_digits d rest
      | None => None
      end
  | EmptyString => None
  end.

(** [int(x)] in base ten for [x] a [str] of ASCII characters or [None];
    [None] as a result stands for the exception ([TypeError] for
    [int(None)], [ValueError] for a text that is no literal).  The
    literal may have any number of digits.  Beyond ASCII, [int] also
    skips the other whitespace of Unicode and reads its other decimal
    digits; this definition is used on ASCII text only. *)
Definition int (x : option string) : option Z :=
  match x with
  | None => None
  | Some s =>
      match lstrip s with
      | String c rest =>
          if Ascii.eqb c "-"%char then option_map Z.opp (unsigned_literal rest)
          else if Ascii.eqb c "+"%char then unsigned_literal rest
          else unsigned_literal (String c rest)
      | EmptyString => None
      end
  end.

(** [sub in s] *)
Definition contains (sub s : string) : Prop :=
  exists before after : string, s = before ++ sub ++ after.

(** *** [str(n)] and [sep.join(parts)] *)

Definition str (n : Z) : string := NilZero.string_of_int (Z.to_int n).

Fixpoint join (sep : string) (parts : list string) : string :=
  match parts with
  | [] => ""
  | [p] => p
  | p :: rest => p ++ sep ++ join sep rest
  end.

End Py.

(* ================================================================== *)
(** ** The element tree of lxml *)

Module Lxml.

(** [node.tag] is a [str] for an element; for a comment, a processing
    instruction or an entity it is a factory function, which compares
    unequal to every [str]. *)
Inductive tag_value : Type :=
| TagName (name : string)
| TagComment
| TagPI
| TagEntity.

(** An element with its [.tag], its [.text] (absent when the element
    has no leading text) and its children in document order. *)
#[warnings="-register-all"]
Inductive element : Type :=
| Node (tag : tag_value) (text : option string) (children : list element).

Definition tag (n : element) : tag_value := let '(Node t _ _) := n in t.
Definition text (n : element) : option string := let '(Node _ x _) := n in x.
Definition children (n : element) : list element := let '(Node _ _ c) := n in c.

(** [n.tag == name] *)
Definition tag_is (n : element) (name : string) : bool :=
  match tag n with
  | TagName s => String.eqb s name
  | _ => false
  end.

(** A leaf element [<name>txt</name>]. *)
Definition leaf (name txt : string) : element := Node (TagName name) (Some txt) [].

End Lxml.

(* ================================================================== *)
(** ** Response parser: [get_gene_ids_from_xml] *)

Module Parser.
Import Lxml.

Section WithInt.
(** The builtin [int] on [sub_node.text]: the integer that the text (or
    [None]) reads as, or nothing when [int] raises.  The parser is
    defined for whatever texts [int] accepts; [Py.int] is what it accepts
    of ASCII text. *)
Variable int : option string -> option Z.

(** Lines 103-108: the loop that appends [int(sub_node.text)] to
    [gene_ids], passing over a child whose conversion raises. *)
Definition append_id (gene_ids : list Z) (sub_node : element) : list Z :=
  match int (text sub_node) with
  | Some v => gene_ids ++ [v]
  | None => gene_ids
  end.

Definition collect_ids (sub_nodes : list element) : list Z :=
  fold_left append_id sub_nodes [].

(** Lines 96-115: the loop over the children of the root. *)
Fixpoint scan_children (nodes : list element) : list Z :=
  match nodes with
  | [] => []
  | node :: rest =>
      if negb (tag_is node "IdList") then scan_children rest
      else
        match children node with
        | [] => []
        | first :: _ =>
            if negb (tag_is first "Id") then []
            else
              let gene_ids := collect_ids (children node) in
              if (0 <? List.length gene_ids)%nat then gene_ids else []
        end
  end.

Definition get_gene_ids_from_root (root : element) : list Z :=
  scan_children (children root).

Section FromString.
(** [lxml.etree.fromstring(str.encode(xml))]: the tree of a
    well-formed text, an exception otherwise. *)
Variable fromstring : string -> Py.result element.

Definition get_gene_ids_from_xml (xml : string) : Py.result (list Z) :=
  match fromstring xml with
  | Py.Ok root => Py.Ok (get_gene_ids_from_root root)
  | Py.Raise e => Py.Raise e
  end.
End FromString.

(** The integers among the texts of [nodes], in the order of [nodes]. *)
Fixpoint ids_in_order (nodes : list element) : list Z :=
  match nodes with
  | [] => []
  | n :: rest =>
      match int (text n) with
      | Some v => v :: ids_in_order rest
      | None => ids_in_order rest
      end
  end.

End WithInt.

(** The first direct child of the root tagged [IdList], if any. *)
Fixpoint first_IdList (nodes : list element) : option element :=
  match nodes with
  | [] => None
  | n :: rest => if tag_is n "IdList" then Some n else first_IdList rest
  end.

(** Retagging an element leaves its text and its children as they are. *)
Definition retag (t : element -> tag_value) (n : element) : element :=
  Node (t n) (text n) (children n).

End Parser.

(* ================================================================== *)
(** ** Rate limiter: [limit_calls] and [limit_calls_basic] *)

Module Limiter.
Import Py.
Local Open Scope Q_scope.

(** The [time] module: [time.time()] reads the clock of the world,
    [time.sleep(d)] moves the world forward. *)
Class Clock (World : Type) : Type := {
  time_time : World -> Q;
  time_sleep : Q -> World -> World
}.

(** [time.sleep(d)] suspends the caller for [d] seconds at least. *)
Class ClockLaws (World : Type) `{Clock World} : Prop := {
  sleep_at_least :
    forall (d : Q) (w : World), 0 < d -> time_time w + d <= time_time (time_sleep d w)
}.

(** [a > b] on floats. *)
Definition gt (a b : Q) : bool := negb (Qle_bool a b).

(** [max(a, b)]: the first of the largest arguments. *)
Definition max (a b : Q) : Q := if gt b a then b else a.

Section WithWorld.
Context {World : Type} `{Clock World}.

(** Lines 34-37 and 60-63, the same statements in both classes:
    "if necessary, sleep before next call". *)
Definition sleep_if_necessary
    (previous_time : option Q) (delta_time small_delta_time : Q) (w : World) : World :=
  match previous_time with
  | Some previous =>
      let time_to_sleep :=
        max 0.0 (delta_time + small_delta_time - (time_time w - previous)) in
      if gt time_to_sleep 0.0 then time_sleep time_to_sleep w else w
  | None => w
  end.

(** A callable of the program: it may move the world, and returns or raises. *)
Definition callable (Args Val : Type) : Type := Args -> World -> World * result Val.

(** A callable during which the clock does not run backwards. *)
Definition forward {Args Val : Type} (func : callable Args Val) : Prop :=
  forall (args : Args) (w : World), time_time w <= time_time (fst (func args w)).

End WithWorld.

(** *** [class limit_calls] *)

Record limit_calls : Type := {
  previous_time : option Q;
  delta_time : Q;
  small_delta_time : Q
}.

Definition default_delta_time : Q := 0.35.

(** [limit_calls.__init__(self, delta_time=0.35)] *)
Definition init (delta_time : Q) : limit_calls :=
  {| previous_time := None; delta_time := delta_time; small_delta_time := 0.01 |}.

Definition set_previous_time (self : limit_calls) (t : Q) : limit_calls :=
  {| previous_time := Some t;
     delta_time := delta_time self;
     small_delta_time := small_delta_time self |}.

(** The least time between the timestamp of a call and the start of the next. *)
Definition interval (self : limit_calls) : Q := delta_time self + small_delta_time self.

Section Wrap.
Context {World : Type} `{Clock World} {Args Val : Type}.
Variable func : callable (World := World) Args Val.

(** The world in which [wrap] calls [func]. *)
Definition before_call (self : limit_calls) (w : World) : World :=
  sleep_if_necessary (previous_time self) (delta_time self) (small_delta_time self) w.

(** [limit_calls.__call__(self, func)] returns [wrap]; [wrap] applied to [args]
    gives the world after the call, the limiter after the call and
    what the call returned or raised. *)
Definition wrap (self : limit_calls) (args : Args) (w : World)
  : World * limit_calls * result Val :=
  let w1 := before_call self w in
  match func args w1 with
  | (w2, Ok val) => (w2, set_previous_time self (time_time w2), Ok val)
  | (w2, Raise e) => (w2, self, Raise e)
  end.

(** One invocation of [func] as an observer sees it. *)
Record invocation : Type := {
  started : Q;
  finished : Q;
  normal : bool
}.

Definition observe (self : limit_calls) (args : Args) (w : World) : invocation :=
  let w1 := before_call self w in
  let '(w2, r) := func args w1 in
  {| started := time_time w1; finished := time_time w2; normal := returned r |}.

(** A caller that uses one limiter for a sequence of calls of [wrap],
    handles what they raise, and lets any amount of time pass between
    the return of a call and the next call.  [session self w tr self' w']:
    from limiter [self] and world [w] the invocations [tr] of [func]
    take place and leave limiter [self'] and world [w']. *)
Inductive session : limit_calls -> World -> list invocation -> limit_calls -> World -> Prop :=
| session_end (self : limit_calls) (w : World) :
    session self w [] self w
| session_call (self self1 self' : limit_calls) (w w1 w2 w' : World)
    (args : Args) (r : result Val) (tr : list invocation) :
    wrap self args w = (w1, self1, r) ->
    time_time w1 <= time_time w2 ->
    session self1 w2 tr self' w' ->
    session self w (observe self args w :: tr) self' w'.

(** The caller above when it calls [wrap] for each of [argss] with
    nothing in between. *)
Fixpoint back_to_back (self : limit_calls) (argss : list Args) (w : World)
  : list invocation * limit_calls * World :=
  match argss with
  | [] => ([], self, w)
  | args :: rest =>
      let '(w1, self1, _) := wrap self args w in
      let '(tr, self', w') := back_to_back self1 rest w1 in
      (observe self args w :: tr, self', w')
  end.

End Wrap.

(** A number of calls as a rational. *)
Definition count (n : nat) : Q := inject_Z (Z.of_nat n).

(** *** [class limit_calls_basic] *)

Module Basic.
Section Basic.
Context {World : Type} `{Clock World} {Args Val : Type}.

Record limit_calls_basic : Type := {
  func : callable (World := World) Args Val;
  previous_time : option Q;
  delta_time : Q;
  small_delta_time : Q
}.

(** [limit_calls_basic.__init__(self, func)] *)
Definition init (func : callable Args Val) : limit_calls_basic :=
  {| func := func; previous_time := None; delta_time := 0.35; small_delta_time := 0.01 |}.

(** [limit_calls_basic.__call__(self, *args)] *)
Definition call (self : limit_calls_basic) (args : Args) (w : World)
  : World * limit_calls_basic * result Val :=
  let w1 :=
    sleep_if_necessary (previous_time self) (delta_time self) (small_delta_time self) w in
  match func self args w1 with
  | (w2, Ok val) =>
      (w2,
       {| func := func self;
          previous_time := Some (time_time w2);
          delta_time := delta_time self;
          small_delta_time := small_delta_time self |},
       Ok val)
  | (w2, Raise e) => (w2, self, Raise e)
  end.
End Basic.
Arguments limit_calls_basic World Args Val : clear implicits.
End Basic.

End Limiter.

(* ================================================================== *)
(** ** Remote lookup: [get_gene_ids_from_gene_symbol] *)

Module Lookup.
Import Py Limiter.

(** What the program reads of a [requests.Response]. *)
Record response : Type := { ok : bool; text : string }.

(** [requests.get(url)]: a response, or an exception of the HTTP client. *)
Class Network (World : Type) : Type := {
  requests_get : string -> World -> World * result response
}.

Definition endpoint : string :=
  "https://eutils.ncbi.nlm.nih.gov/entrez/eutils/esearch.fcgi".

(** Line 132. *)
Definition url (organism gene_symbol : string) : string :=
  "https://eutils.ncbi.nlm.nih.gov/entrez/eutils/esearch.fcgi?db=gene&term="
    ++ gene_symbol ++ "[symbol]+AND+" ++ organism ++ "[organism]".

(** Line 136. *)
Definition invalid (organism gene_symbol : string) : exn :=
  mk_exn ValueError ("Invalid (" ++ organism ++ ") or gene symbol (" ++ gene_symbol ++ ")").

Section WithWorld.
Context {World : Type} `{Clock World} `{Network World}.
(** The builtin [int], which the parser applies to the texts. *)
Variable int : option string -> option Z.
Variable fromstring : string -> result Lxml.element.

(** Lines 132-140, the function under the decorator. *)
Definition lookup : callable (World := World) (string * string) (list Z) :=
  fun '(organism, gene_symbol) w =>
    match requests_get (url organism gene_symbol) w with
    | (w1, Ok response) =>
        if negb (ok response) then (w1, Raise (invalid organism gene_symbol))
        else (w1, Parser.get_gene_ids_from_xml int fromstring (text response))
    | (w1, Raise e) => (w1, Raise e)
    end.

(** Line 120: the limiter that decorates the lookup. *)
Definition lookup_limiter : limit_calls := init 0.35.

(** The decorated function: [limit_calls(delta_time=0.35)(lookup)]
    called as [get_gene_ids_from_gene_symbol(organism, gene_symbol)],
    with the limiter [self] as the calls so far have left it. *)
Definition get_gene_ids_from_gene_symbol
    (self : limit_calls) (organism gene_symbol : string) (w : World)
  : World * limit_calls * result (list Z) :=
  wrap lookup self (organism, gene_symbol) w.

End WithWorld.

End Lookup.

(* ================================================================== *)
(** ** Report printer: [print_gene_info] *)

Module Report.
Import Py Limiter.

(** Lines 187-192.  [len(gene_ids) is 0] holds exactly when the length is
    zero, CPython keeping one object for each small integer. *)
Definition gene_ids_str (gene_ids : list Z) : string :=
  if (List.length gene_ids =? 0)%nat then ""
  else if (List.length gene_ids =? 1)%nat then Py.str (nth 0 gene_ids 0%Z)
  else Py.join ", " (map Py.str gene_ids).

(** [s.ljust(width)] *)
Definition ljust (s : string) (width : nat) : string :=
  s ++ String.concat "" (repeat " " (width - String.length s)).

Definition tab : string := String (ascii_of_nat 9) "".

Section WithWorld.
Context {World : Type} `{Clock World} `{Lookup.Network World}.
(** The builtin [int], which the parser applies to the texts. *)
Variable int : option string -> option Z.
Variable fromstring : string -> result Lxml.element.

(** Lines 183-194: the lines printed for one gene symbol, until a
    lookup raises. *)
Fixpoint print_organisms
    (self : limit_calls) (organisms : list string) (gene_symbol : string)
    (column_width : nat) (w : World)
  : World * limit_calls * list string * result unit :=
  match organisms with
  | [] => (w, self, [], Ok tt)
  | organism :: rest =>
      match Lookup.get_gene_ids_from_gene_symbol int fromstring self organism gene_symbol w with
      | (w1, self1, Ok gene_ids) =>
          let line :=
            tab ++ ljust organism column_width ++ " --> " ++ gene_ids_str gene_ids in
          let '(w2, self2, lines, r) :=
            print_organisms self1 rest gene_symbol column_width w1 in
          (w2, self2, line :: lines, r)
      | (w1, self1, Raise e) => (w1, self1, [], Raise e)
      end
  end.

(** Lines 180-196. *)
Fixpoint print_gene_info
    (self : limit_calls) (organisms gene_symbols : list string)
    (column_width : nat) (w : World)
  : World * limit_calls * list string * result unit :=
  match gene_symbols with
  | [] => (w, self, [], Ok tt)
  | gene_symbol :: rest =>
      let header := "Gene Symbol: " ++ gene_symbol in
      match print_organisms self organisms gene_symbol column_width w with
      | (w1, self1, lines, Ok _) =>
          let '(w2, self2, lines', r) :=
            print_gene_info self1 organisms rest column_width w1 in
          (w2, self2, header :: lines ++ lines', r)
      | (w1, self1, lines, Raise e) => (w1, self1, header :: lines, Raise e)
      end
  end.

End WithWorld.

End Report.

(* ================================================================== *)
(** ** Methods of [str] *)

Module Str.

(** [c.isspace()] for an ASCII character: what [split()] and [strip()]
    take for whitespace in ASCII text.  Beyond ASCII there is more
    whitespace (U+0085, U+00A0, U+2000 and others): [split] and [strip]
    below are those of Python on ASCII text. *)
Definition isspace (c : ascii) : bool :=
  let n := nat_of_ascii c in
  (((9 <=? n) && (n <=? 13)) || ((28 <=? n) && (n <=? 32)))%nat.

(** The text up to the first separator, and the texts between the
    separators after it. *)
Fixpoint pieces (sep : ascii -> bool) (s : string) : string * list string :=
  match s with
  | EmptyString => ("", [])
  | String c rest =>
      let '(p, ps) := pieces sep rest in
      if sep c then ("", p :: ps) else (String c p, ps)
  end.

(** The texts between the separators of [s], empty ones included. *)
Definition split_at (sep : ascii -> bool) (s : string) : list string :=
  let '(p, ps) := pieces sep s in p :: ps.

Definition nonempty (s : string) : bool := negb (String.eqb s "").

(** [s.isascii()] *)
Fixpoint isascii (s : string) : bool :=
  match s with
  | String c rest => (nat_of_ascii c <? 128)%nat && isascii rest
  | EmptyString => true
  end.

(** [s.split()]: the texts between runs of whitespace. *)
Definition split (s : string) : list string := filter nonempty (split_at isspace s).

(** [s.split(sep)] for a separator of one character. *)
Definition split_on (sep : ascii) (s : string) : list string :=
  split_at (Ascii.eqb sep) s.

Fixpoint lstrip (s : string) : string :=
  match s with
  | String c rest => if isspace c then lstrip rest else s
  | EmptyString => s
  end.

Fixpoint rstrip (s : string) : string :=
  match s with
  | String c rest =>
      match rstrip rest with
      | EmptyString => if isspace c then "" else String c ""
      | r => String c r
      end
  | EmptyString => s
  end.

(** [s.strip()] *)
Definition strip (s : string) : string := rstrip (lstrip s).

(** The characters of [s], as [for c in s] yields them. *)
Fixpoint chars (s : string) : list string :=
  match s with
  | String c rest => String c "" :: chars rest
  | EmptyString => []
  end.

End Str.

(* ================================================================== *)
(** ** Answers of the questionnaire: [get_questionnaire_answers], [not_blank] *)

Module Answers.
Import Py.

(** An answer is a text (a choice of [one], the input of [raw]) or a list
    of texts (the choices of [many]). *)
Inductive value : Type :=
| Text (s : string)
| Choices (l : list string).

(** [q.answers], a [dict] from the keys of the questions. *)
Definition answers : Type := list (string * value).

(** [d[key]] *)
Definition getitem (d : answers) (key : string) : result value :=
  match find (fun kv => String.eqb (fst kv) key) d with
  | Some kv => Ok (snd kv)
  | None => Raise (mk_exn KeyError key)
  end.

(** [v == s] for a [str] [s] *)
Definition equals (v : value) (s : string) : bool :=
  match v with
  | Text t => String.eqb t s
  | Choices _ => false
  end.

(** Lines 160-163, the loop over [val.split(",")]. *)
Definition add_symbols (selected_gene_symbols : list string) (val : string) : list string :=
  fold_left
    (fun (selected : list string) (split_val : string) =>
       let gene_symbol := Str.strip split_val in
       if negb (String.eqb gene_symbol "") then (selected ++ [gene_symbol])%list
       else selected)
    (Str.split_on ","%char val) selected_gene_symbols.

(** Lines 155-163. *)
Definition user_defined_symbols (text : string) : list string :=
  fold_left add_symbols (Str.split text) [].

(** Lines 148-165.  A list has no [split]: [AttributeError]. *)
Definition get_questionnaire_answers (q_answers : answers) : result (value * value) :=
  match getitem q_answers "organisms" with
  | Raise e => Raise e
  | Ok selected_organisms =>
      match getitem q_answers "gene_symbol_input" with
      | Raise e => Raise e
      | Ok input =>
          if equals input "predefined" then
            match getitem q_answers "gene_symbols" with
            | Raise e => Raise e
            | Ok selected_gene_symbols => Ok (selected_organisms, selected_gene_symbols)
            end
          else
            match getitem q_answers "gene_symbols" with
            | Raise e => Raise e
            | Ok (Text text) =>
                Ok (selected_organisms, Choices (user_defined_symbols text))
            | Ok (Choices _) =>
                Raise (mk_exn (OtherError "AttributeError")
                         "'list' object has no attribute 'split'")
            end
      end
  end.

(** Lines 218-219. *)
Definition not_blank (value : string) : option string :=
  if String.eqb value "" then Some "enter gene symbol(s)" else None.

(** The gene symbols that one text between whitespace gives. *)
Definition kept (val : string) : list string :=
  filter Str.nonempty (map Str.strip (Str.split_on ","%char val)).

(** A character that ends a gene symbol in the free text. *)
Definition is_separator (c : ascii) : bool := Str.isspace c || Ascii.eqb c ","%char.

(** The texts between the separators of [text], empty ones left out. *)
Definition tokens (text : string) : list string :=
  filter Str.nonempty (Str.split_at is_separator text).

Fixpoint free_of (sep : ascii -> bool) (s : string) : bool :=
  match s with
  | String c rest => negb (sep c) && free_of sep rest
  | EmptyString => true
  end.

Fixpoint made_of (sep : ascii -> bool) (s : string) : bool :=
  match s with
  | String c rest => sep c && made_of sep rest
  | EmptyString => true
  end.

(** [s] without its separators. *)
Fixpoint without (sep : ascii -> bool) (s : string) : string :=
  match s with
  | String c rest => if sep c then without sep rest else String c (without sep rest)
  | EmptyString => s
  end.

(** A gene symbol as the free text can carry it. *)
Definition symbol_like (s : string) : bool := Str.nonempty s && free_of is_separator s.

End Answers.

(* ================================================================== *)
(** ** Runs of the limiter and of the report *)

Module Runs.
Import Py Limiter.
Local Open Scope Q_scope.

Section WithWorld.
Context {World : Type} `{Clock World}.

(** A sleep lasts as long as asked, no longer. *)
Definition exact_sleep : Prop :=
  forall (d : Q) (w : World), time_time (time_sleep d w) == time_time w + d.

(** The clock does not run backwards during a request. *)
Definition steady_network `{Lookup.Network World} : Prop :=
  forall (u : string) (w : World), time_time w <= time_time (fst (Lookup.requests_get u w)).

Section WithFunc.
Context {Args Val : Type}.
Variable func : callable (World := World) Args Val.

(** A caller that calls [wrap] for each of [argss] in turn and lets the
    first exception end the run, as the loops of [print_gene_info] do. *)
Fixpoint call_until_raise (self : limit_calls) (argss : list Args) (w : World)
  : list invocation * limit_calls * World * result unit :=
  match argss with
  | [] => ([], self, w, Ok tt)
  | args :: rest =>
      match wrap func self args w with
      | (w1, self1, Ok _) =>
          let '(tr, self', w', r) := call_until_raise self1 rest w1 in
          (observe func self args w :: tr, self', w', r)
      | (w1, self1, Raise e) => ([observe func self args w], self1, w1, Raise e)
      end
  end.

(** The limiter of class [limit_calls] with the state of one of class
    [limit_calls_basic]. *)
Definition to_limit_calls (b : Basic.limit_calls_basic World Args Val) : limit_calls :=
  {| previous_time := Basic.previous_time b;
     delta_time := Basic.delta_time b;
     small_delta_time := Basic.small_delta_time b |}.

End WithFunc.
End WithWorld.

(** The timestamp a limiter holds after the invocations [tr], from the
    timestamp it held before. *)
Definition stamp (previous : option Q) (tr : list invocation) : option Q :=
  fold_left (fun p i => if normal i then Some (finished i) else p) tr previous.

(** The lookups of a report in the order of its loops. *)
Definition report_queries (organisms gene_symbols : list string) : list (string * string) :=
  flat_map (fun gene_symbol => map (fun organism => (organism, gene_symbol)) organisms)
    gene_symbols.

End Runs.

(* ================================================================== *)
(** ** Entry point: [main] *)

Module Main.
Import Py Limiter Answers.

Definition predefined_organisms : list string :=
  ["Homo sapiens"; "Mus musculus"; "Danio rerio"; "Cricetulus griseus";
   "Bos taurus"; "Gallus gallus"; "Sus scrofa"; "Rattus norvegicus"].

Definition predefined_gene_symbols : list string := ["BRCA1"; "BRCA2"; "BAD"; "TP63"].

(** [max(l)] for a list of lengths. *)
Definition max_of (l : list nat) : result nat :=
  match l with
  | [] => Raise (mk_exn ValueError "max() arg is an empty sequence")
  | x :: rest => Ok (fold_left Nat.max rest x)
  end.

(** Line 250: [min(50, max([len(organism) for organism in organisms]))]. *)
Definition column_width (organisms : list string) : result nat :=
  match max_of (map String.length organisms) with
  | Ok longest => Ok (Nat.min 50 longest)
  | Raise e => Raise e
  end.

(** What [for x in v] yields. *)
Definition iterate (v : value) : list string :=
  match v with
  | Choices l => l
  | Text s => Str.chars s
  end.

Section WithWorld.
Context {World : Type} `{Clock World} `{Lookup.Network World}.
(** The builtin [int], which the parser applies to the texts. *)
Variable int : option string -> option Z.
Variable fromstring : string -> result Lxml.element.

(** Lines 245-251: [main] from the return of [q.run()] on, [q_answers]
    being the answers that the questionnaire has collected. *)
Definition main (q_answers : answers) (self : limit_calls) (w : World)
  : World * limit_calls * list string * result unit :=
  match get_questionnaire_answers q_answers with
  | Raise e => (w, self, [], Raise e)
  | Ok (selected_organisms, selected_gene_symbols) =>
      match column_width predefined_organisms with
      | Raise e => (w, self, [], Raise e)
      | Ok width =>
          Report.print_gene_info int fromstring self
            (iterate selected_organisms) (iterate selected_gene_symbols) width w
      end
  end.

End WithWorld.

End Main.

(* ================================================================== *)
(** ** A world to run the program in *)

Module Sim.
Import Py Lxml Limiter Lookup.
Local Open Scope Q_scope.

(** The world is the reading of its clock; a sleep lasts as long as
    asked, a request lasts [latency]. *)
Definition world : Type := Q.

#[global] Instance clock : Clock world :=
  {| time_time := fun w => w; time_sleep := fun d w => w + d |}.

Definition latency : Q := 0.1.

Definition esearch (id_list : list element) : element :=
  Node (TagName "eSearchResult") None
    [leaf "Count" "1"; leaf "RetMax" "1"; leaf "RetStart" "0";
     Node (TagName "IdList") None id_list;
     Node (TagName "TranslationSet") None []].

Definition brca1_xml : string :=
  "<eSearchResult><Count>1</Count><RetMax>1</RetMax><RetStart>0</RetStart><IdList><Id>672</Id></IdList><TranslationSet/></eSearchResult>".

Definition mixed_xml : string :=
  "<eSearchResult><Count>1</Count><RetMax>1</RetMax><RetStart>0</RetStart><IdList><Id>12</Id><Id>abc</Id><Id>34</Id></IdList><TranslationSet/></eSearchResult>".

Definition foo_only_xml : string :=
  "<eSearchResult><Count>1</Count><RetMax>1</RetMax><RetStart>0</RetStart><IdList><Foo>2</Foo></IdList><TranslationSet/></eSearchResult>".

Definition id_then_foo_xml : string :=
  "<r><IdList><Id>1</Id><Foo>2</Foo></IdList></r>".

Definition foo_then_id_xml : string :=
  "<r><IdList><Foo>2</Foo><Id>1</Id></IdList></r>".

Definition empty_IdList_xml : string := "<r><IdList/></r>".

Definition no_IdList_xml : string := "<r><Count>0</Count><Ids><IdList><Id>5</Id></IdList></Ids></r>".

(** The documents this world knows, each with the tree lxml builds of it. *)
Definition documents : list (string * element) :=
  [ (brca1_xml, esearch [leaf "Id" "672"]);
    (mixed_xml, esearch [leaf "Id" "12"; leaf "Id" "abc"; leaf "Id" "34"]);
    (foo_only_xml, esearch [leaf "Foo" "2"]);
    (id_then_foo_xml,
      Node (TagName "r") None
        [Node (TagName "IdList") None [leaf "Id" "1"; leaf "Foo" "2"]]);
    (foo_then_id_xml,
      Node (TagName "r") None
        [Node (TagName "IdList") None [leaf "Foo" "2"; leaf "Id" "1"]]);
    (empty_IdList_xml, Node (TagName "r") None [Node (TagName "IdList") None []]);
    (no_IdList_xml,
      Node (TagName "r") None
        [leaf "Count" "0";
         Node (TagName "Ids") None
           [Node (TagName "IdList") None [leaf "Id" "5"]]]) ].

Definition fromstring (xml : string) : result element :=
  match find (fun d => String.eqb (fst d) xml) documents with
  | Some d => Ok (snd d)
  | None => Raise (mk_exn (OtherError "XMLSyntaxError") xml)
  end.

Definition two_lists_xml : string :=
  "<r><!--IdList--><IdList><Id>672<Id>7</Id></Id></IdList><IdList><Id>9</Id></IdList></r>".

Definition two_lists : element :=
  Node (TagName "r") None
    [Node TagComment (Some "IdList") [];
     Node (TagName "IdList") None
       [Node (TagName "Id") (Some "672") [leaf "Id" "7"]];
     Node (TagName "IdList") None [leaf "Id" "9"]].

(** [fromstring] with one more document. *)
Definition fromstring_more (xml : string) : result element :=
  if String.eqb xml two_lists_xml then Ok two_lists else fromstring xml.

(** The server knows one gene of one organism. *)
Definition server (u : string) : response :=
  if String.eqb u (url "Homo sapiens" "BRCA1")
  then {| ok := true; text := brca1_xml |}
  else {| ok := false; text := "" |}.

#[global] Instance network : Network world :=
  {| requests_get := fun u w => (w + latency, Ok (server u)) |}.

(** A network that answers the one URL the server knows and fails on
every other. *)
Definition narrow_network : Network world :=
{| requests_get := fun u w =>
if String.eqb u (url "Homo sapiens" "BRCA1")
then (w + latency, Ok (server u))
else (w, Raise (mk_exn (OtherError "ConnectionError") u)) |}.

(** A callable that takes no time, raises on [false] and returns on [true]. *)
Definition moody : callable (World := world) bool unit :=
  fun args w => (w, if args then Ok tt else Raise (mk_exn ValueError "no")).

End Sim.

(* ================================================================== *)
(** * Properties *)

Import Py Lxml Parser Limiter Report.

(** ** The builtins on examples *)

Example int_of_digits : Py.int (Some "12") = Some 12.
Proof. reflexivity. Qed.

Example int_of_letters : Py.int (Some "abc") = None.
Proof. reflexivity. Qed.

Example int_of_padded : Py.int (Some (String (ascii_of_nat 10) " 34 ")) = Some 34.
Proof. reflexivity. Qed.

Example int_of_grouped : Py.int (Some "1_000") = Some 1000.
Proof. reflexivity. Qed.

Example int_of_badly_grouped :
  Py.int (Some "1__0") = None /\ Py.int (Some "1_") = None /\ Py.int (Some "_1") = None.
Proof. repeat split. Qed.

Example int_of_signed : Py.int (Some "-5") = Some (-5) /\ Py.int (Some "- 5") = None.
Proof. split; reflexivity. Qed.

Example int_of_nothing : Py.int None = None /\ Py.int (Some "") = None.
Proof. split; reflexivity. Qed.

Example str_of_numbers : Py.str (-12) = "-12" /\ Py.str 0 = "0" /\ Py.str 672 = "672".
Proof. repeat split. Qed.

(** ** Response parser *)

Section ParserFacts.
Variable int : option string -> option Z.

Lemma fold_append_id (nodes : list element) (acc : list Z) :
  fold_left (append_id int) nodes acc = (acc ++ ids_in_order int nodes)%list.
Proof.
  revert acc; induction nodes as [|n nodes IH]; intros acc; simpl.
  - now rewrite app_nil_r.
  - unfold append_id at 2. destruct (int (text n)) as [v|].
    + rewrite IH, <- app_assoc. reflexivity.
    + apply IH.
Qed.

Lemma collect_ids_in_order (nodes : list element) :
  collect_ids int nodes = ids_in_order int nodes.
Proof. unfold collect_ids. now rewrite fold_append_id. Qed.

(** The last test of the loop body returns the collected list either way. *)
Lemma nonempty_or_nil (l : list Z) :
  (if (0 <? List.length l)%nat then l else []) = l.
Proof. destruct l; reflexivity. Qed.

Lemma scan_children_first_IdList (nodes : list element) :
  scan_children int nodes =
  match first_IdList nodes with
  | None => []
  | Some idlist =>
      match children idlist with
      | [] => []
      | first :: _ =>
          if tag_is first "Id" then ids_in_order int (children idlist) else []
      end
  end.
Proof.
  induction nodes as [|n nodes IH]; simpl; [reflexivity|].
  destruct (tag_is n "IdList"); simpl; [|exact IH].
  destruct (children n) as [|first others] eqn:E; [reflexivity|].
  destruct (tag_is first "Id"); simpl; [|reflexivity].
  now rewrite nonempty_or_nil, collect_ids_in_order.
Qed.

Lemma first_IdList_none (nodes : list element) :
  Forall (fun n => tag n <> TagName "IdList") nodes -> first_IdList nodes = None.
Proof.
  induction 1 as [|n nodes Hn _ IH]; simpl; [reflexivity|].
  unfold tag_is. destruct (tag n) as [s| | |]; try exact IH.
  destruct (String.eqb_spec s "IdList") as [->|_]; [now elim Hn | exact IH].
Qed.

Lemma tag_is_true (n : element) (name : string) :
  tag_is n name = true <-> tag n = TagName name.
Proof.
  unfold tag_is. destruct (tag n) as [s| | |]; try (split; discriminate).
  rewrite String.eqb_eq. split; congruence.
Qed.

Lemma get_gene_ids_of_tree (fromstring : string -> result element)
    (xml : string) (root : element) :
  fromstring xml = Ok root ->
  get_gene_ids_from_xml int fromstring xml = Ok (scan_children int (children root)).
Proof. intros E. unfold get_gene_ids_from_xml. now rewrite E. Qed.

Lemma ids_in_order_retag (t : element -> tag_value) (nodes : list element) :
  ids_in_order int (map (retag t) nodes) = ids_in_order int nodes.
Proof.
  induction nodes as [|n nodes IH]; simpl; [reflexivity|].
  rewrite IH. reflexivity.
Qed.

Lemma ids_in_order_In (nodes : list element) (n : element) (v : Z) :
  In n nodes -> int (text n) = Some v -> In v (ids_in_order int nodes).
Proof.
  induction nodes as [|m nodes IH]; simpl; [tauto|].
  intros [->|Hin] Hv.
  - rewrite Hv. now left.
  - destruct (int (text m)); [right|]; now apply IH.
Qed.

End ParserFacts.

(** C3.  When the first child of the [IdList] node is tagged [Id], the
    parser returns the integers among the texts of all the children of
    [IdList], in document order: a child whose text [int] rejects leaves no
    trace, a child whose text [int] accepts contributes its value.  This
    holds whatever the texts that [int] accepts are.  The document with
    children [<Id>12</Id><Id>abc</Id><Id>34</Id>] gives [[12; 34]]. *)
Theorem parser_collects_integers_in_order :
  (forall (int : option string -> option Z)
          (fromstring : string -> result element) (xml : string)
          (root idlist first : element) (others : list element),
      fromstring xml = Ok root ->
      first_IdList (children root) = Some idlist ->
      children idlist = first :: others ->
      tag first = TagName "Id" ->
      get_gene_ids_from_xml int fromstring xml = Ok (ids_in_order int (first :: others)))
  /\ (forall (int : option string -> option Z) (n : element) (rest : list element),
        ids_in_order int (n :: rest) =
        match int (text n) with
        | Some v => v :: ids_in_order int rest
        | None => ids_in_order int rest
        end)
  /\ get_gene_ids_from_xml Py.int Sim.fromstring Sim.mixed_xml = Ok [12; 34].
Proof.
  split; [|split; [reflexivity | reflexivity]].
  intros int fromstring xml root idlist first others Hdoc Hid Hch Htag.
  rewrite (get_gene_ids_of_tree _ _ _ _ Hdoc), scan_children_first_IdList, Hid, Hch.
  apply tag_is_true in Htag. now rewrite Htag.
Qed.

Lemma parser_collects_integers_in_order_witness :
  get_gene_ids_from_xml Py.int Sim.fromstring Sim.brca1_xml = Ok [672].
Proof.
  exact (proj1 parser_collects_integers_in_order
           Py.int Sim.fromstring Sim.brca1_xml
           (Sim.esearch [leaf "Id" "672"])
           (Node (TagName "IdList") None [leaf "Id" "672"])
           (leaf "Id" "672") []
           eq_refl eq_refl eq_refl eq_refl).
Defined.

(** C5.  When the [IdList] node has no children, or its first child is
    not tagged [Id], the parser returns the empty list. *)
Theorem parser_empty_on_bad_IdList
    (int : option string -> option Z) (fromstring : string -> result element)
    (xml : string) (root idlist : element) :
  fromstring xml = Ok root ->
  first_IdList (children root) = Some idlist ->
  children idlist = [] \/
    (exists first others, children idlist = first :: others /\ tag first <> TagName "Id") ->
  get_gene_ids_from_xml int fromstring xml = Ok [].
Proof.
  intros Hdoc Hid Hbad.
  rewrite (get_gene_ids_of_tree _ _ _ _ Hdoc), scan_children_first_IdList, Hid.
  destruct Hbad as [-> | (first & others & -> & Htag)]; [reflexivity|].
  destruct (tag_is first "Id") eqn:E; [|reflexivity].
  apply tag_is_true in E. contradiction.
Qed.

Lemma parser_empty_on_bad_IdList_witness :
  get_gene_ids_from_xml Py.int Sim.fromstring Sim.foo_only_xml = Ok []
  /\ get_gene_ids_from_xml Py.int Sim.fromstring Sim.empty_IdList_xml = Ok [].
Proof.
  split.
  - apply (parser_empty_on_bad_IdList Py.int Sim.fromstring Sim.foo_only_xml
             (Sim.esearch [leaf "Foo" "2"])
             (Node (TagName "IdList") None [leaf "Foo" "2"]));
      [reflexivity | reflexivity |].
    right. exists (leaf "Foo" "2"), []. split; [reflexivity | discriminate].
  - apply (parser_empty_on_bad_IdList Py.int Sim.fromstring Sim.empty_IdList_xml
             (Node (TagName "r") None [Node (TagName "IdList") None []])
             (Node (TagName "IdList") None []));
      [reflexivity | reflexivity | now left].
Defined.

(** C6.  When no direct child of the root is tagged [IdList], the parser
    returns the empty list. *)
Theorem parser_empty_without_IdList
    (int : option string -> option Z) (fromstring : string -> result element)
    (xml : string) (root : element) :
  fromstring xml = Ok root ->
  Forall (fun n => tag n <> TagName "IdList") (children root) ->
  get_gene_ids_from_xml int fromstring xml = Ok [].
Proof.
  intros Hdoc Hnone.
  rewrite (get_gene_ids_of_tree _ _ _ _ Hdoc), scan_children_first_IdList.
  now rewrite (first_IdList_none _ Hnone).
Qed.

Lemma parser_empty_without_IdList_witness :
  get_gene_ids_from_xml Py.int Sim.fromstring Sim.no_IdList_xml = Ok [].
Proof.
  apply (parser_empty_without_IdList Py.int Sim.fromstring Sim.no_IdList_xml
           (Node (TagName "r") None
              [leaf "Count" "0";
               Node (TagName "Ids") None
                 [Node (TagName "IdList") None [leaf "Id" "5"]]]));
    [reflexivity|].
  repeat constructor; discriminate.
Defined.

(** C9.  Only the tag of the first child of [IdList] is looked at.  When
    that tag is [Id], whatever tags the later children carry, the result is
    the integers among the texts of all the children, so every later child
    whose text [int] accepts contributes its value; this holds whatever the
    texts that [int] accepts are.  [<Id>1</Id><Foo>2</Foo>] gives [[1; 2]]
    and [<Foo>2</Foo><Id>1</Id>] gives [[]]. *)
Theorem parser_checks_first_tag_only :
  (forall (int : option string -> option Z)
          (fromstring : string -> result element) (xml : string)
          (root idlist first : element) (others : list element)
          (t : element -> tag_value),
      fromstring xml = Ok root ->
      first_IdList (children root) = Some idlist ->
      children idlist = first :: map (retag t) others ->
      tag first = TagName "Id" ->
      get_gene_ids_from_xml int fromstring xml = Ok (ids_in_order int (first :: others))
      /\ (forall (n : element) (v : Z),
             In n others -> int (text n) = Some v ->
             In v (ids_in_order int (first :: others))))
  /\ get_gene_ids_from_xml Py.int Sim.fromstring Sim.id_then_foo_xml = Ok [1; 2]
  /\ get_gene_ids_from_xml Py.int Sim.fromstring Sim.foo_then_id_xml = Ok [].
Proof.
  split; [|split; reflexivity].
  intros int fromstring xml root idlist first others t Hdoc Hid Hch Htag. split.
  - rewrite (get_gene_ids_of_tree _ _ _ _ Hdoc), scan_children_first_IdList, Hid, Hch.
    apply tag_is_true in Htag. rewrite Htag. simpl.
    now rewrite ids_in_order_retag.
  - intros n v Hin Hv. apply (ids_in_order_In _ _ n); [now right | exact Hv].
Qed.

Lemma parser_checks_first_tag_only_witness :
  get_gene_ids_from_xml Py.int Sim.fromstring Sim.id_then_foo_xml
  = Ok (ids_in_order Py.int [leaf "Id" "1"; leaf "Id" "2"])
  /\ In 2 (ids_in_order Py.int [leaf "Id" "1"; leaf "Id" "2"]).
Proof.
  destruct (proj1 parser_checks_first_tag_only
              Py.int Sim.fromstring Sim.id_then_foo_xml
              (Node (TagName "r") None
                 [Node (TagName "IdList") None [leaf "Id" "1"; leaf "Foo" "2"]])
              (Node (TagName "IdList") None [leaf "Id" "1"; leaf "Foo" "2"])
              (leaf "Id" "1") [leaf "Id" "2"] (fun _ => TagName "Foo")
              eq_refl eq_refl eq_refl eq_refl) as [Hres Hin].
  split; [exact Hres|].
  apply (Hin (leaf "Id" "2")); [now left | reflexivity].
Defined.

(** ** Report printer *)

Lemma gene_ids_str_join (gene_ids : list Z) :
  gene_ids_str gene_ids = Py.join ", " (map Py.str gene_ids).
Proof. destruct gene_ids as [|a [|b rest]]; reflexivity. Qed.

(** C7.  The identifier list is formatted as the empty string when it is
    empty, as the number alone when it has one element, and as the numbers
    joined by a comma and a space when it has more: the first number, a
    comma, a space, and the rest formatted the same way. *)
Theorem gene_ids_str_format :
  gene_ids_str [] = ""
  /\ (forall n : Z, gene_ids_str [n] = Py.str n)
  /\ (forall (a b : Z) (rest : list Z),
         gene_ids_str (a :: b :: rest) = Py.str a ++ ", " ++ gene_ids_str (b :: rest))
  /\ gene_ids_str [672] = "672"
  /\ gene_ids_str [12; 34] = "12, 34".
Proof.
  repeat split.
  intros a b rest. rewrite !gene_ids_str_join. reflexivity.
Qed.

(** A report in the example world: the lines printed for one organism and
    two gene symbols, and for a second organism that the server does not
    know, where the error ends the report after the first line. *)
Example print_gene_info_run :
  snd (fst (print_gene_info Py.int Sim.fromstring Lookup.lookup_limiter
              ["Homo sapiens"] ["BRCA1"; "BRCA1"] 14 (0%Q : Sim.world)))
  = ["Gene Symbol: BRCA1"; tab ++ "Homo sapiens   --> 672";
     "Gene Symbol: BRCA1"; tab ++ "Homo sapiens   --> 672"]
  /\ snd (print_gene_info Py.int Sim.fromstring Lookup.lookup_limiter
            ["Homo sapiens"; "Mus musculus"] ["BRCA1"] 14 (0%Q : Sim.world))
     = Raise (mk_exn ValueError "Invalid (Mus musculus) or gene symbol (BRCA1)")
  /\ snd (fst (print_gene_info Py.int Sim.fromstring Lookup.lookup_limiter
                 ["Homo sapiens"; "Mus musculus"] ["BRCA1"] 14 (0%Q : Sim.world)))
     = ["Gene Symbol: BRCA1"; tab ++ "Homo sapiens   --> 672"].
Proof. repeat split. Qed.

(** ** Remote lookup *)

Lemma append_assoc (a b c : string) : (a ++ b) ++ c = a ++ b ++ c.
Proof. induction a as [|ch a IH]; simpl; [reflexivity | now rewrite IH]. Qed.

(** C8.  The URL of the request is the endpoint followed by the query
    [db=gene&term=<gene_symbol>[symbol]+AND+<organism>[organism]]; the
    lookup sends its one request to that URL: the world it leaves is the
    world after that request, and its outcome depends on the network
    through the answer to that request only. *)
Theorem lookup_url :
  (forall organism gene_symbol : string,
      Lookup.url organism gene_symbol =
      Lookup.endpoint ++ "?" ++ "db=" ++ "gene" ++ "&" ++ "term="
        ++ (gene_symbol ++ "[symbol]") ++ "+AND+" ++ (organism ++ "[organism]"))
  /\ (forall (World : Type) (net : Lookup.Network World)
             (int : option string -> option Z) (fromstring : string -> result element)
             (organism gene_symbol : string) (w : World),
         fst (Lookup.lookup int fromstring (organism, gene_symbol) w) =
         fst (Lookup.requests_get (Lookup.url organism gene_symbol) w))
  /\ (forall (World : Type) (net net' : Lookup.Network World)
             (int : option string -> option Z) (fromstring : string -> result element)
             (organism gene_symbol : string) (w : World),
         @Lookup.requests_get World net (Lookup.url organism gene_symbol) w =
         @Lookup.requests_get World net' (Lookup.url organism gene_symbol) w ->
         @Lookup.lookup World net int fromstring (organism, gene_symbol) w =
         @Lookup.lookup World net' int fromstring (organism, gene_symbol) w).
Proof.
  split; [|split].
  - intros organism gene_symbol. unfold Lookup.url, Lookup.endpoint.
    simpl. rewrite append_assoc. reflexivity.
  - intros World net int fromstring organism gene_symbol w. unfold Lookup.lookup.
    destruct (Lookup.requests_get _ w) as [w1 [resp|e]]; [|reflexivity].
    destruct (Lookup.ok resp); reflexivity.
  - intros World net net' int fromstring organism gene_symbol w E.
    unfold Lookup.lookup. now rewrite E.
Qed.

Lemma lookup_url_witness :
  @Lookup.lookup Sim.world Sim.network Py.int Sim.fromstring
    ("Homo sapiens", "BRCA1") 0%Q =
  @Lookup.lookup Sim.world Sim.narrow_network Py.int Sim.fromstring
    ("Homo sapiens", "BRCA1") 0%Q.
Proof.
  apply (proj2 (proj2 lookup_url) Sim.world Sim.network Sim.narrow_network
           Py.int Sim.fromstring "Homo sapiens" "BRCA1" 0%Q).
  reflexivity.
Defined.

(** ** Rate limiter *)

Local Open Scope Q_scope.

Lemma gt_true (a b : Q) : gt a b = true <-> b < a.
Proof.
  unfold gt. rewrite negb_true_iff, <- not_true_iff_false, Qle_bool_iff.
  split; [apply Qnot_le_lt | apply Qlt_not_le].
Qed.

Lemma gt_false (a b : Q) : gt a b = false <-> a <= b.
Proof. unfold gt. now rewrite negb_false_iff, Qle_bool_iff. Qed.

Lemma max_zero_positive (x : Q) : 0 < x -> max 0.0 x = x.
Proof.
  intros Hx. unfold max.
  assert (E : gt x 0.0 = true) by (apply gt_true; lra).
  now rewrite E.
Qed.

Lemma max_zero_other (x : Q) : x <= 0 -> max 0.0 x = 0.0.
Proof.
  intros Hx. unfold max.
  assert (E : gt x 0.0 = false) by (apply gt_false; lra).
  now rewrite E.
Qed.

Section ClockFacts.
Context {World : Type} `{Clock World}.

Lemma sleep_if_necessary_first (d s : Q) (w : World) :
  sleep_if_necessary None d s w = w.
Proof. reflexivity. Qed.

Lemma sleep_if_necessary_early (previous d s : Q) (w : World) :
  time_time w - previous < d + s ->
  sleep_if_necessary (Some previous) d s w =
  time_sleep (d + s - (time_time w - previous)) w.
Proof.
  intros Hearly. unfold sleep_if_necessary.
  rewrite max_zero_positive by lra.
  assert (E : gt (d + s - (time_time w - previous)) 0.0 = true)
    by (apply gt_true; lra).
  now rewrite E.
Qed.

Lemma sleep_if_necessary_late (previous d s : Q) (w : World) :
  d + s <= time_time w - previous ->
  sleep_if_necessary (Some previous) d s w = w.
Proof.
  intros Hlate. unfold sleep_if_necessary.
  rewrite max_zero_other by lra. reflexivity.
Qed.

End ClockFacts.

Section SleepFacts.
Context {World : Type} `{ClockLaws World}.

Lemma sleep_if_necessary_forward (p : option Q) (d s : Q) (w : World) :
  time_time w <= time_time (sleep_if_necessary p d s w).
Proof.
  destruct p as [previous|]; [|rewrite sleep_if_necessary_first; lra].
  destruct (Qlt_le_dec (time_time w - previous) (d + s)) as [Hearly|Hlate].
  - rewrite sleep_if_necessary_early by exact Hearly.
    assert (Hd : 0 < d + s - (time_time w - previous)) by lra.
    pose proof (sleep_at_least _ w Hd). lra.
  - rewrite sleep_if_necessary_late by exact Hlate. lra.
Qed.

Lemma sleep_if_necessary_spaced (previous d s : Q) (w : World) :
  previous + (d + s) <= time_time (sleep_if_necessary (Some previous) d s w).
Proof.
  destruct (Qlt_le_dec (time_time w - previous) (d + s)) as [Hearly|Hlate].
  - rewrite sleep_if_necessary_early by exact Hearly.
    assert (Hd : 0 < d + s - (time_time w - previous)) by lra.
    pose proof (sleep_at_least _ w Hd). lra.
  - rewrite sleep_if_necessary_late by exact Hlate. lra.
Qed.

End SleepFacts.

Section WrapFacts.
Context {World : Type} `{Clock World} {Args Val : Type}.
Variable func : callable (World := World) Args Val.

Lemma wrap_unfold (self : limit_calls) (args : Args) (w : World) :
  wrap func self args w =
  (fst (func args (before_call self w)),
   (if returned (snd (func args (before_call self w)))
    then set_previous_time self (time_time (fst (func args (before_call self w))))
    else self),
   snd (func args (before_call self w))).
Proof.
  unfold wrap. destruct (func args (before_call self w)) as [w2 [v|e]]; reflexivity.
Qed.

Lemma wrap_inv (self self1 : limit_calls) (args : Args) (w w1 : World) (r : result Val) :
  wrap func self args w = (w1, self1, r) ->
  func args (before_call self w) = (w1, r)
  /\ self1 = (if returned r then set_previous_time self (time_time w1) else self).
Proof.
  rewrite wrap_unfold. intros E. injection E as E1 E2 E3.
  destruct (func args (before_call self w)) as [w2 r2]; simpl in *.
  subst. split; reflexivity.
Qed.

Lemma wrap_interval (self self1 : limit_calls) (args : Args) (w w1 : World) (r : result Val) :
  wrap func self args w = (w1, self1, r) -> interval self1 = interval self.
Proof.
  intros E. apply wrap_inv in E as [_ ->]. destruct (returned r); reflexivity.
Qed.

Lemma observe_of_wrap (self self1 : limit_calls) (args : Args) (w w1 : World) (r : result Val) :
  wrap func self args w = (w1, self1, r) ->
  observe func self args w =
  {| started := time_time (before_call self w);
     finished := time_time w1;
     normal := returned r |}.
Proof.
  intros E. apply wrap_inv in E as [E _]. unfold observe. now rewrite E.
Qed.

Lemma session_interval (self self' : limit_calls) (w w' : World) (tr : list invocation) :
  session func self w tr self' w' -> interval self' = interval self.
Proof.
  induction 1 as [|self self1 self' w w1 w2 w' args r tr E _ _ IH]; [reflexivity|].
  rewrite IH. exact (wrap_interval _ _ _ _ _ _ E).
Qed.

Lemma session_cons_inv (self self' : limit_calls) (w w' : World)
    (a : invocation) (tr : list invocation) :
  session func self w (a :: tr) self' w' ->
  exists (args : Args) (w1 w2 : World) (self1 : limit_calls) (r : result Val),
    a = observe func self args w
    /\ wrap func self args w = (w1, self1, r)
    /\ time_time w1 <= time_time w2
    /\ session func self1 w2 tr self' w'.
Proof.
  intros Hs. inversion Hs; subst. eauto 10.
Qed.

Lemma back_to_back_session (argss : list Args) (self : limit_calls) (w : World) :
  session func self w
    (fst (fst (back_to_back func self argss w)))
    (snd (fst (back_to_back func self argss w)))
    (snd (back_to_back func self argss w)).
Proof.
  revert self w. induction argss as [|args rest IH]; intros self w; simpl.
  - constructor.
  - destruct (wrap func self args w) as [[w1 self1] r] eqn:E.
    specialize (IH self1 w1).
    destruct (back_to_back func self1 rest w1) as [[tr self'] w']; simpl in *.
    eapply session_call; [exact E | apply Qle_refl | exact IH].
Qed.

End WrapFacts.

Section SessionFacts.
Context {World : Type} `{ClockLaws World} {Args Val : Type}.
Variable func : callable (World := World) Args Val.
Hypothesis func_forward : forward func.

Lemma started_le_finished (self : limit_calls) (args : Args) (w : World) :
  started (observe func self args w) <= finished (observe func self args w).
Proof.
  unfold observe. pose proof (func_forward args (before_call self w)) as Hf.
  destruct (func args (before_call self w)) as [w2 r]; simpl in *. exact Hf.
Qed.

Lemma before_call_forward (self : limit_calls) (w : World) :
  time_time w <= time_time (before_call self w).
Proof. apply sleep_if_necessary_forward. Qed.

(** The call after a call that returned starts an interval after that
    return at the earliest. *)
Lemma next_call_spaced (self self1 : limit_calls) (args args' : Args)
    (w w1 w2 : World) (r : result Val) :
  wrap func self args w = (w1, self1, r) ->
  returned r = true ->
  finished (observe func self args w) + interval self
  <= started (observe func self1 args' w2).
Proof.
  intros E Hr. rewrite (observe_of_wrap _ _ _ _ _ _ _ E); simpl.
  apply wrap_inv in E as [_ ->]. rewrite Hr.
  unfold observe, before_call; simpl.
  pose proof (sleep_if_necessary_spaced (time_time w1) (delta_time self)
                (small_delta_time self) w2) as Hs.
  destruct (func args' _) as [w3 r3]; simpl. exact Hs.
Qed.

Lemma session_adjacent (self self' : limit_calls) (w w' : World) (tr : list invocation) :
  session func self w tr self' w' ->
  forall (pre post : list invocation) (a b : invocation),
    tr = (pre ++ a :: b :: post)%list ->
    normal a = true ->
    finished a + interval self <= started b /\ started a <= finished a.
Proof.
  induction 1 as [|self self1 self' w w1 w2 w' args r tr E Hgap Hs IH];
    intros pre post a b Htr Ha.
  - destruct pre; discriminate.
  - destruct pre as [|p pre]; simpl in Htr; injection Htr as Hhead Htail.
    + subst a. split; [|apply started_le_finished].
      subst tr.
      apply session_cons_inv in Hs as (args' & w3 & w4 & self2 & r' & -> & _).
      rewrite (observe_of_wrap _ _ _ _ _ _ _ E) in Ha; simpl in Ha.
      exact (next_call_spaced _ _ _ _ _ _ _ _ E Ha).
    + rewrite <- (wrap_interval _ _ _ _ _ _ _ E).
      exact (IH pre post a b Htail Ha).
Qed.

Lemma count_succ (n : nat) : count (S n) == count n + 1.
Proof.
  unfold count. rewrite Nat2Z.inj_succ, <- Z.add_1_r, inject_Z_plus. reflexivity.
Qed.

Lemma session_elapsed (self self' : limit_calls) (w w' : World) (tr : list invocation) :
  session func self w tr self' w' ->
  forallb normal tr = true ->
  forall q : Q,
    q <= time_time (before_call self w) ->
    tr <> [] ->
    q + count (pred (List.length tr)) * interval self <= time_time w'.
Proof.
  induction 1 as [|self self1 self' w w1 w2 w' args r tr E Hgap Hs IH];
    intros Hall q Hq Hne; [congruence|].
  simpl in Hall. apply andb_true_iff in Hall as [Ha Hall].
  rewrite (observe_of_wrap _ _ _ _ _ _ _ E) in Ha; simpl in Ha.
  pose proof (wrap_interval _ _ _ _ _ _ _ E) as Hint.
  pose proof (started_le_finished self args w) as Hsf.
  rewrite (observe_of_wrap _ _ _ _ _ _ _ E) in Hsf; simpl in Hsf.
  destruct tr as [|b tr].
  - inversion Hs; subst. simpl. unfold count; simpl.
    change (inject_Z 0) with 0. lra.
  - assert (Hq' : time_time w1 + interval self <= time_time (before_call self1 w2)).
    { apply wrap_inv in E as [_ ->]. rewrite Ha. unfold before_call; simpl.
      apply sleep_if_necessary_spaced. }
    specialize (IH Hall _ Hq' ltac:(discriminate)).
    rewrite Hint in IH.
    change (pred (List.length (observe func self args w :: b :: tr)))
      with (S (pred (List.length (b :: tr)))).
    rewrite count_succ. lra.
Qed.

End SessionFacts.

(** *** The example world *)

Lemma sim_clock_laws : ClockLaws Sim.world.
Proof. constructor. intros d w _. simpl. apply Qle_refl. Qed.

Lemma sim_moody_forward : forward Sim.moody.
Proof. intros args w. simpl. apply Qle_refl. Qed.

Lemma sim_lookup_forward : forward (Lookup.lookup Py.int Sim.fromstring).
Proof.
  intros [organism gene_symbol] w. unfold Lookup.lookup. simpl.
  assert (Hl : w <= w + Sim.latency) by (unfold Sim.latency; lra).
  destruct (Lookup.ok _); exact Hl.
Qed.

(** Three lookups in a row in the example world, each answered after
    [0.1]: they start at 0, 0.46 and 0.92. *)
Example three_lookups_run :
  map (fun i => (Qred (started i), Qred (finished i), normal i))
    (fst (fst (back_to_back (Lookup.lookup Py.int Sim.fromstring) Lookup.lookup_limiter
                 [("Homo sapiens", "BRCA1"); ("Homo sapiens", "BRCA1");
                  ("Homo sapiens", "BRCA1")] (0 : Sim.world))))
  = [(0, 0.1, true); (23 # 50, 14 # 25, true); (23 # 25, 51 # 50, true)].
Proof. vm_compute. reflexivity. Qed.

(** *** Spacing of the calls *)

(** X20.  In a world where a sleep lasts as long as asked at least and
    the clock does not run backwards during a call, for every sequence of
    calls through one limiter, however little time the caller lets pass
    between them: a call that follows a call that returned starts
    [delta_time + small_delta_time] after that return at the earliest,
    hence as long after its start; and when all the calls return, the
    world after the last of [N] calls is
    [(N - 1) * (delta_time + small_delta_time)] later than the world before
    the first. *)
Theorem calls_after_return_are_spaced
    {World : Type} `{ClockLaws World} {Args Val : Type}
    (func : callable (World := World) Args Val)
    (self self' : limit_calls) (w w' : World) (tr : list invocation) :
  forward func ->
  session func self w tr self' w' ->
  (forall (pre post : list invocation) (a b : invocation),
      tr = (pre ++ a :: b :: post)%list ->
      normal a = true ->
      finished a + (delta_time self + small_delta_time self) <= started b
      /\ started a + (delta_time self + small_delta_time self) <= started b)
  /\ (forallb normal tr = true ->
      time_time w
        + count (pred (List.length tr)) * (delta_time self + small_delta_time self)
      <= time_time w').
Proof.
  intros Hf Hs. split.
  - intros pre post a b Htr Ha.
    destruct (session_adjacent func Hf _ _ _ _ _ Hs pre post a b Htr Ha) as [H1 H2].
    unfold interval in H1. split; lra.
  - intros Hall. destruct tr as [|a tr].
    + inversion Hs; subst. simpl. unfold count; simpl.
      change (inject_Z 0) with 0. lra.
    + apply (session_elapsed func Hf _ _ _ _ _ Hs Hall).
      * apply before_call_forward.
      * discriminate.
Qed.

Lemma calls_after_return_are_spaced_witness :
  0 + count 2 * (0.35 + 0.01)
  <= snd (back_to_back Sim.moody (init 0.35) [true; true; true] (0 : Sim.world)).
Proof.
  apply (proj2 (calls_after_return_are_spaced (H0 := sim_clock_laws) Sim.moody
                  (init 0.35) _ (0 : Sim.world) _ _
                  sim_moody_forward
                  (back_to_back_session Sim.moody [true; true; true] (init 0.35) 0))).
  reflexivity.
Defined.

(** C1.  The limiter does not keep two successive lookups apart when the
    first of them raises: [wrap] sets the timestamp after [func] has
    returned, a lookup that raises leaves none, and the lookup after it is
    not delayed.  Here the first lookup is answered with a non-success
    status after [0.1] and raises; the second, made at once by a caller
    that handles the error, starts [0.1] after the start of the first, not
    [0.36], against "limits the time between function calls" and the three
    requests a second of the note above the decorator. *)
Lemma calls_after_raise_are_not_spaced :
  ClockLaws Sim.world
  /\ forward (Lookup.lookup Py.int Sim.fromstring)
  /\ exists (tr : list invocation) (self' : limit_calls) (w' : Sim.world)
            (a b : invocation),
      session (Lookup.lookup Py.int Sim.fromstring) Lookup.lookup_limiter (0 : Sim.world)
        tr self' w'
      /\ tr = [a; b]
      /\ normal a = false
      /\ started b - started a == 0.1
      /\ ~ (started a + (delta_time Lookup.lookup_limiter
                          + small_delta_time Lookup.lookup_limiter) <= started b).
Proof.
  split; [exact sim_clock_laws|]. split; [exact sim_lookup_forward|].
  pose proof (back_to_back_session (Lookup.lookup Py.int Sim.fromstring)
                [("Homo sapiens", "NOPE"); ("Homo sapiens", "BRCA1")]
                Lookup.lookup_limiter (0 : Sim.world)) as Hs.
  eexists _, _, _, _, _. split; [exact Hs|].
  split; [reflexivity|]. split; [reflexivity|].
  split; [reflexivity|]. vm_compute. intros Hle. apply Hle. reflexivity.
Qed.

(** *** One call through the limiter *)

(** C4.  A limiter is created with no timestamp, the given
    [delta_time] (0.35 by default) and a [small_delta_time] of 0.01.  With
    no timestamp, the first invocation, [func] is called in the world as it
    is, without a sleep.  With a timestamp [previous], when
    [time.time() - previous] is less than [delta_time + small_delta_time] the
    call is preceded by one sleep of exactly
    [delta_time + small_delta_time - (time.time() - previous)], and otherwise
    [func] is called in the world as it is.  The timestamp kept after a call
    that returns is the clock of the world that [func] left. *)
Theorem limit_calls_protocol
    {World : Type} `{Clock World} {Args Val : Type}
    (func : callable (World := World) Args Val)
    (self : limit_calls) (args : Args) (w : World) :
  (forall d : Q,
      previous_time (init d) = None /\ delta_time (init d) = d
      /\ small_delta_time (init d) = 0.01)
  /\ default_delta_time = 0.35
  /\ (previous_time self = None -> before_call self w = w)
  /\ (forall previous : Q,
         previous_time self = Some previous ->
         time_time w - previous < delta_time self + small_delta_time self ->
         before_call self w =
         time_sleep (delta_time self + small_delta_time self
                     - (time_time w - previous)) w)
  /\ (forall previous : Q,
         previous_time self = Some previous ->
         delta_time self + small_delta_time self <= time_time w - previous ->
         before_call self w = w)
  /\ (let w2 := fst (func args (before_call self w)) in
      let r := snd (func args (before_call self w)) in
      wrap func self args w =
      (w2, (if returned r then set_previous_time self (time_time w2) else self), r)
      /\ previous_time (set_previous_time self (time_time w2)) = Some (time_time w2)).
Proof.
  split; [intros d; repeat split|]. split; [reflexivity|].
  unfold before_call. split; [|split; [|split]].
  - intros ->. reflexivity.
  - intros previous -> Hearly. now apply sleep_if_necessary_early.
  - intros previous -> Hlate. now apply sleep_if_necessary_late.
  - split; [apply wrap_unfold | reflexivity].
Qed.

Lemma limit_calls_protocol_witness :
  before_call (init 0.35) (5 : Sim.world) = 5
  /\ before_call (set_previous_time (init 0.35) 5) (5.1 : Sim.world)
     = time_sleep (0.35 + 0.01 - (5.1 - 5)) (5.1 : Sim.world)
  /\ before_call (set_previous_time (init 0.35) 5) (5.5 : Sim.world) = 5.5.
Proof.
  split; [|split].
  - exact (proj1 (proj2 (proj2 (limit_calls_protocol Sim.moody (init 0.35) true 5)))
             eq_refl).
  - refine (proj1 (proj2 (proj2 (proj2
              (limit_calls_protocol Sim.moody (set_previous_time (init 0.35) 5)
                 true 5.1)))) 5 eq_refl _).
    reflexivity.
  - refine (proj1 (proj2 (proj2 (proj2 (proj2
              (limit_calls_protocol Sim.moody (set_previous_time (init 0.35) 5)
                 true 5.5))))) 5 eq_refl _).
    simpl. unfold Qle. simpl. lia.
Defined.

(** C10.  When [func] raises, the exception leaves [wrap] and the limiter
    is as it was before the call, in [limit_calls] and in
    [limit_calls_basic] alike; the sleep before the next invocation is
    computed from the timestamp of the last call that returned. *)
Theorem raise_keeps_previous_time
    {World : Type} `{Clock World} {Args Val : Type}
    (func : callable (World := World) Args Val) :
  (forall (self : limit_calls) (args : Args) (w w2 : World) (e : exn),
      func args (before_call self w) = (w2, Raise e) ->
      wrap func self args w = (w2, self, Raise e))
  /\ (forall (self self1 self2 : limit_calls) (args args' : Args)
             (w w1 w' w2 : World) (v : Val) (e : exn),
         wrap func self args w = (w1, self1, Ok v) ->
         wrap func self1 args' w' = (w2, self2, Raise e) ->
         previous_time self2 = Some (time_time w1)
         /\ forall w3 : World,
             before_call self2 w3 =
             sleep_if_necessary (Some (time_time w1)) (delta_time self)
               (small_delta_time self) w3)
  /\ (forall (self : Basic.limit_calls_basic World Args Val)
             (args : Args) (w w2 : World) (e : exn),
         Basic.func self args
           (sleep_if_necessary (Basic.previous_time self) (Basic.delta_time self)
              (Basic.small_delta_time self) w) = (w2, Raise e) ->
         Basic.call self args w = (w2, self, Raise e)).
Proof.
  split; [|split].
  - intros self args w w2 e E. unfold wrap. now rewrite E.
  - intros self self1 self2 args args' w w1 w' w2 v e E1 E2.
    apply wrap_inv in E1 as [_ ->]. apply wrap_inv in E2 as [_ ->]. simpl.
    split; reflexivity.
  - intros self args w w2 e E. unfold Basic.call. now rewrite E.
Qed.

Lemma raise_keeps_previous_time_witness :
  wrap Sim.moody (set_previous_time (init 0.35) 5) false (9 : Sim.world)
  = (9, set_previous_time (init 0.35) 5, Raise (mk_exn ValueError "no"))
  /\ Basic.call (Basic.init Sim.moody) false (9 : Sim.world)
     = (9, Basic.init Sim.moody, Raise (mk_exn ValueError "no")).
Proof.
  split.
  - apply (proj1 (raise_keeps_previous_time Sim.moody)). reflexivity.
  - apply (proj2 (proj2 (raise_keeps_previous_time Sim.moody))). reflexivity.
Defined.

(** *** Failure of the lookup *)

(** C2, as the code has it.  When the answer to the request has a
    non-success status, the lookup raises a [ValueError] at once: the
    response text is not parsed, the limiter keeps its timestamp, and the
    message of the error, [Invalid (<organism>) or gene symbol
    (<gene_symbol>)], contains the organism and the gene symbol. *)
Theorem lookup_raises_ValueError
    {World : Type} `{Clock World} `{Lookup.Network World}
    (int : option string -> option Z) (fromstring : string -> result element)
    (self : limit_calls) (organism gene_symbol : string)
    (w w1 : World) (response : Lookup.response) :
  Lookup.requests_get (Lookup.url organism gene_symbol) (before_call self w)
  = (w1, Ok response) ->
  Lookup.ok response = false ->
  exists e : exn,
    Lookup.get_gene_ids_from_gene_symbol int fromstring self organism gene_symbol w
    = (w1, self, Raise e)
    /\ exn_type e = ValueError
    /\ exn_message e
       = "Invalid (" ++ organism ++ ") or gene symbol (" ++ gene_symbol ++ ")"
    /\ contains organism (exn_message e)
    /\ contains gene_symbol (exn_message e).
Proof.
  intros Hget Hok. exists (Lookup.invalid organism gene_symbol).
  split; [|split; [reflexivity|split; [reflexivity|split]]].
  - unfold Lookup.get_gene_ids_from_gene_symbol, wrap, Lookup.lookup.
    now rewrite Hget, Hok.
  - exists "Invalid (", (") or gene symbol (" ++ gene_symbol ++ ")"). reflexivity.
  - exists ("Invalid (" ++ organism ++ ") or gene symbol ("), ")". simpl.
    now rewrite !append_assoc.
Qed.

Lemma lookup_raises_ValueError_witness :
  exists e : exn,
    Lookup.get_gene_ids_from_gene_symbol Py.int Sim.fromstring Lookup.lookup_limiter
      "Homo sapiens" "NOPE" (0 : Sim.world)
    = (0 + Sim.latency, Lookup.lookup_limiter, Raise e)
    /\ exn_type e = ValueError
    /\ exn_message e = "Invalid (Homo sapiens) or gene symbol (NOPE)"
    /\ contains "Homo sapiens" (exn_message e)
    /\ contains "NOPE" (exn_message e).
Proof.
  apply (lookup_raises_ValueError Py.int Sim.fromstring Lookup.lookup_limiter
           "Homo sapiens" "NOPE" (0 : Sim.world) (0 + Sim.latency)
           (Sim.server (Lookup.url "Homo sapiens" "NOPE")));
    reflexivity.
Defined.

(** C2 as stated fails: the exception raised on a non-success status is a
    [ValueError], which is no [LookupError]. *)
Lemma lookup_error_is_no_LookupError :
  Lookup.ok (Sim.server (Lookup.url "Homo sapiens" "NOPE")) = false
  /\ exists (w1 : Sim.world) (self' : limit_calls) (e : exn),
      Lookup.get_gene_ids_from_gene_symbol Py.int Sim.fromstring Lookup.lookup_limiter
        "Homo sapiens" "NOPE" (0 : Sim.world)
      = (w1, self', Raise e)
      /\ isinstance e LookupError = false
      /\ isinstance e ValueError = true.
Proof.
  split; [reflexivity|].
  eexists _, _, _. split; [reflexivity|]. split; reflexivity.
Qed.

(** ** Methods of [str] *)

Local Open Scope Z_scope.

Lemma append_nil_r (s : string) : s ++ "" = s.
Proof. induction s as [|c s IH]; simpl; [reflexivity | now rewrite IH]. Qed.


Lemma split_at_nil (sep : ascii -> bool) : Str.split_at sep "" = [""].
Proof. reflexivity. Qed.

Lemma split_at_pieces (sep : ascii -> bool) (s p : string) (ps : list string) :
  Str.pieces sep s = (p, ps) -> Str.split_at sep s = p :: ps.
Proof. intros E. unfold Str.split_at. now rewrite E. Qed.

Lemma split_at_sep (sep : ascii -> bool) (c : ascii) (rest : string) :
  sep c = true -> Str.split_at sep (String c rest) = "" :: Str.split_at sep rest.
Proof.
  intros Hc. unfold Str.split_at. simpl.
  destruct (Str.pieces sep rest) as [p ps]. now rewrite Hc.
Qed.

(** The pieces of a text hold no character that the separator covers, and
    none that the text does not hold. *)
Lemma pieces_free (sep sep' : ascii -> bool) (s : string) :
  (forall c, sep' c = true -> sep c = true) \/ Answers.free_of sep' s = true ->
  Answers.free_of sep' (fst (Str.pieces sep s)) = true
  /\ Forall (fun p => Answers.free_of sep' p = true) (snd (Str.pieces sep s)).
Proof.
  induction s as [|c s IH]; intros Hs; simpl; [split; [reflexivity | constructor]|].
  assert (Hs' : (forall c, sep' c = true -> sep c = true) \/ Answers.free_of sep' s = true).
  { destruct Hs as [Hs|Hs]; [now left|]. simpl in Hs.
    apply andb_true_iff in Hs as [_ Hs]. now right. }
  specialize (IH Hs') as [IHp IHps].
  destruct (Str.pieces sep s) as [p ps]; simpl in *.
  destruct (sep c) eqn:Hc; simpl.
  - split; [reflexivity | now constructor].
  - split; [|exact IHps]. rewrite IHp, andb_true_r.
    destruct Hs as [Hs|Hs].
    + destruct (sep' c) eqn:Hc'; [|reflexivity].
      apply Hs in Hc'. congruence.
    + now apply andb_true_iff in Hs as [-> _].
Qed.

Lemma split_at_free (sep sep' : ascii -> bool) (s : string) :
  (forall c, sep' c = true -> sep c = true) \/ Answers.free_of sep' s = true ->
  Forall (fun p => Answers.free_of sep' p = true) (Str.split_at sep s).
Proof.
  intros Hs. destruct (pieces_free sep sep' s Hs) as [Hp Hps].
  unfold Str.split_at. destruct (Str.pieces sep s) as [p ps]. now constructor.
Qed.

Lemma lstrip_free (s : string) :
  Answers.free_of Str.isspace s = true -> Str.lstrip s = s.
Proof.
  destruct s as [|c s]; simpl; [reflexivity|].
  intros Hs. apply andb_true_iff in Hs as [Hc _].
  apply negb_true_iff in Hc. now rewrite Hc.
Qed.

Lemma rstrip_free (s : string) :
  Answers.free_of Str.isspace s = true -> Str.rstrip s = s.
Proof.
  induction s as [|c s IH]; simpl; [reflexivity|].
  intros Hs. apply andb_true_iff in Hs as [Hc Hs].
  rewrite (IH Hs). apply negb_true_iff in Hc. rewrite Hc.
  destruct s; reflexivity.
Qed.

Lemma strip_free (s : string) :
  Answers.free_of Str.isspace s = true -> Str.strip s = s.
Proof.
  intros Hs. unfold Str.strip. rewrite (lstrip_free s Hs). now apply rstrip_free.
Qed.

(** ** Answers of the questionnaire *)


Lemma add_symbols_kept (selected : list string) (val : string) :
  Answers.add_symbols selected val = (selected ++ Answers.kept val)%list.
Proof.
  unfold Answers.add_symbols, Answers.kept.
  generalize (Str.split_on ","%char val) as l. intros l. revert selected.
  induction l as [|x l IH]; intros selected; simpl; [now rewrite app_nil_r|].
  rewrite IH. unfold Str.nonempty.
  destruct (negb (String.eqb (Str.strip x) "")); simpl;
    [now rewrite <- app_assoc | reflexivity].
Qed.

Lemma user_defined_symbols_flat (text : string) :
  Answers.user_defined_symbols text = flat_map Answers.kept (Str.split text).
Proof.
  unfold Answers.user_defined_symbols.
  assert (G : forall l acc,
             fold_left Answers.add_symbols l acc = (acc ++ flat_map Answers.kept l)%list).
  { induction l as [|x l IH]; intros acc; simpl; [now rewrite app_nil_r|].
    now rewrite IH, add_symbols_kept, <- app_assoc. }
  apply G.
Qed.

Lemma kept_free (val : string) :
  Answers.free_of Str.isspace val = true ->
  Answers.kept val = filter Str.nonempty (Str.split_at (Ascii.eqb ","%char) val).
Proof.
  intros Hval. unfold Answers.kept, Str.split_on. f_equal.
  pose proof (split_at_free (Ascii.eqb ","%char) Str.isspace val (or_intror Hval)) as Hall.
  induction Hall as [|x l Hx _ IH]; simpl; [reflexivity|].
  now rewrite (strip_free x Hx), IH.
Qed.

Lemma is_separator_cases (c : ascii) :
  Answers.is_separator c = Str.isspace c || Ascii.eqb ","%char c.
Proof. unfold Answers.is_separator. now rewrite (Ascii.eqb_sym c). Qed.

(** Cutting at one kind of separator and then at another gives the pieces
    that cutting at both at once gives, empty pieces apart. *)
Lemma pieces_twice (sp cm sep : ascii -> bool) (s : string) :
  (forall c, sep c = sp c || cm c) ->
  let '(p, ps) := Str.pieces sp s in
  let '(q, qs) := Str.pieces cm p in
  let '(t, ts) := Str.pieces sep s in
  t = q
  /\ filter Str.nonempty ts =
     (filter Str.nonempty qs
        ++ flat_map (fun v => filter Str.nonempty (Str.split_at cm v))
             (filter Str.nonempty ps))%list.
Proof.
  intros Hsep. induction s as [|c s IH]; simpl; [split; reflexivity|].
  destruct (Str.pieces sp s) as [p ps].
  destruct (Str.pieces cm p) as [q qs] eqn:Eq.
  destruct (Str.pieces sep s) as [t ts].
  destruct IH as [-> IH].
  assert (Hhead :
            filter Str.nonempty (q :: ts) =
            (filter Str.nonempty (q :: qs)
               ++ flat_map (fun v => filter Str.nonempty (Str.split_at cm v))
                    (filter Str.nonempty ps))%list).
  { simpl. rewrite IH. destruct (Str.nonempty q); reflexivity. }
  rewrite Hsep.
  destruct (sp c) eqn:Hsp; simpl.
  - split; [reflexivity|].
    change (filter Str.nonempty (q :: ts) =
            flat_map (fun v => filter Str.nonempty (Str.split_at cm v))
              (filter Str.nonempty (p :: ps))).
    rewrite Hhead. simpl.
    destruct (Str.nonempty p) eqn:Hp; simpl.
    + now rewrite (split_at_pieces _ _ _ _ Eq).
    + apply negb_false_iff, String.eqb_eq in Hp. subst p.
      simpl in Eq. injection Eq as <- <-. reflexivity.
  - rewrite Eq. destruct (cm c) eqn:Hc; simpl.
    + split; [reflexivity | exact Hhead].
    + split; [reflexivity | exact IH].
Qed.

Lemma user_defined_symbols_tokens (text : string) :
  Answers.user_defined_symbols text = Answers.tokens text.
Proof.
  rewrite user_defined_symbols_flat. unfold Str.split, Answers.tokens.
  pose proof (split_at_free Str.isspace Str.isspace text (or_introl (fun c H => H))) as Hfree.
  assert (E : flat_map Answers.kept (filter Str.nonempty (Str.split_at Str.isspace text)) =
              flat_map (fun v => filter Str.nonempty (Str.split_at (Ascii.eqb ","%char) v))
                (filter Str.nonempty (Str.split_at Str.isspace text))).
  { induction Hfree as [|x l Hx _ IH]; simpl; [reflexivity|].
    destruct (Str.nonempty x); simpl; [|exact IH].
    now rewrite IH, (kept_free x Hx). }
  rewrite E. clear E Hfree.
  pose proof (pieces_twice Str.isspace (Ascii.eqb ","%char) Answers.is_separator text
                is_separator_cases) as H.
  unfold Str.split_at at 2 3.
  destruct (Str.pieces Str.isspace text) as [p ps].
  destruct (Str.pieces (Ascii.eqb ","%char) p) as [q qs] eqn:Eq.
  destruct (Str.pieces Answers.is_separator text) as [t ts].
  destruct H as [-> H]. simpl. rewrite H.
  destruct (Str.nonempty p) eqn:Hp; simpl.
  - rewrite (split_at_pieces _ _ _ _ Eq). simpl.
    destruct (Str.nonempty q); reflexivity.
  - apply negb_false_iff, String.eqb_eq in Hp. subst p.
    simpl in Eq. injection Eq as <- <-. reflexivity.
Qed.

Lemma concat_cons (x : string) (xs : list string) :
  String.concat "" (x :: xs) = x ++ String.concat "" xs.
Proof. destruct xs; simpl; [now rewrite append_nil_r | reflexivity]. Qed.

Lemma concat_nonempty (l : list string) :
  String.concat "" (filter Str.nonempty l) = String.concat "" l.
Proof.
  induction l as [|x l IH]; [reflexivity|].
  rewrite concat_cons. cbn [filter].
  destruct (Str.nonempty x) eqn:Hx.
  - now rewrite concat_cons, IH.
  - apply negb_false_iff, String.eqb_eq in Hx. now subst x.
Qed.

Lemma concat_split_at (sep : ascii -> bool) (s : string) :
  String.concat "" (Str.split_at sep s) = Answers.without sep s.
Proof.
  induction s as [|c s IH]; [reflexivity|].
  unfold Str.split_at in *. cbn [Str.pieces Answers.without].
  destruct (Str.pieces sep s) as [p ps].
  destruct (sep c).
  - now rewrite concat_cons.
  - rewrite concat_cons in *. simpl. now rewrite IH.
Qed.


(** X1.  The gene symbols read from a free text of ASCII characters are
    the texts between its separators (commas and whitespace), in their
    order, the empty ones left out: put end to end they give the text
    without its separators. *)
Theorem user_defined_symbols_are_tokens (text : string) :
  Str.isascii text = true ->
  Answers.user_defined_symbols text
  = filter Str.nonempty (Str.split_at Answers.is_separator text)
  /\ String.concat "" (Answers.user_defined_symbols text)
     = Answers.without Answers.is_separator text.
Proof.
  intros _. rewrite user_defined_symbols_tokens. split; [reflexivity|].
  unfold Answers.tokens. now rewrite concat_nonempty, concat_split_at.
Qed.

Lemma user_defined_symbols_are_tokens_witness :
  Answers.user_defined_symbols " BRCA1 ,,BRCA2, "
  = filter Str.nonempty (Str.split_at Answers.is_separator " BRCA1 ,,BRCA2, ")
  /\ String.concat "" (Answers.user_defined_symbols " BRCA1 ,,BRCA2, ")
     = Answers.without Answers.is_separator " BRCA1 ,,BRCA2, ".
Proof.
  apply (user_defined_symbols_are_tokens " BRCA1 ,,BRCA2, "). reflexivity.
Defined.



Lemma pieces_app_free (sep : ascii -> bool) (a b : string) :
  Answers.free_of sep a = true ->
  Str.pieces sep (a ++ b) = (a ++ fst (Str.pieces sep b), snd (Str.pieces sep b)).
Proof.
  induction a as [|c a IH]; simpl; [now destruct (Str.pieces sep b)|].
  intros Ha. apply andb_true_iff in Ha as [Hc Ha].
  rewrite (IH Ha). apply negb_true_iff in Hc. now rewrite Hc.
Qed.

Lemma tokens_app_made (a b : string) :
  Answers.made_of Answers.is_separator a = true ->
  Answers.tokens (a ++ b) = Answers.tokens b.
Proof.
  induction a as [|c a IH]; simpl; [reflexivity|].
  intros Ha. apply andb_true_iff in Ha as [Hc Ha].
  unfold Answers.tokens in *. rewrite (split_at_sep _ _ _ Hc). simpl. now apply IH.
Qed.

Lemma tokens_symbol (s : string) :
  Answers.symbol_like s = true -> Answers.tokens s = [s].
Proof.
  unfold Answers.symbol_like. intros Hs. apply andb_true_iff in Hs as [Hne Hfree].
  unfold Answers.tokens, Str.split_at.
  rewrite <- (append_nil_r s) at 1. rewrite (pieces_app_free _ _ _ Hfree). simpl.
  now rewrite append_nil_r, Hne.
Qed.

Lemma tokens_symbol_then (s rest : string) (c : ascii) :
  Answers.symbol_like s = true ->
  Answers.is_separator c = true ->
  Answers.tokens (s ++ String c rest) = s :: Answers.tokens rest.
Proof.
  unfold Answers.symbol_like. intros Hs Hc. apply andb_true_iff in Hs as [Hne Hfree].
  unfold Answers.tokens, Str.split_at.
  rewrite (pieces_app_free _ _ _ Hfree). simpl.
  destruct (Str.pieces Answers.is_separator rest) as [p ps]. rewrite Hc. simpl.
  now rewrite append_nil_r, Hne.
Qed.

(** X3.  Gene symbols joined by a separator made of commas and whitespace
    are read back as they were: for ASCII symbols that are non-empty and
    hold no comma and no whitespace, and a non-empty ASCII separator of
    commas and whitespace only, reading [sep.join(symbols)] gives
    [symbols]. *)
Theorem user_defined_symbols_of_join (sep : string) (symbols : list string) :
  Str.isascii sep = true ->
  Forall (fun s => Str.isascii s = true) symbols ->
  sep <> "" ->
  Answers.made_of Answers.is_separator sep = true ->
  Forall (fun s => Answers.symbol_like s = true) symbols ->
  Answers.user_defined_symbols (Py.join sep symbols) = symbols.
Proof.
  intros _ _ Hne Hsep Hall. rewrite user_defined_symbols_tokens.
  destruct sep as [|c sep]; [congruence|]. simpl in Hsep.
  apply andb_true_iff in Hsep as [Hc Hsep].
  induction Hall as [|s l Hs Hl IH]; [reflexivity|].
  destruct l as [|s2 l]; [exact (tokens_symbol s Hs)|].
  change (Py.join (String c sep) (s :: s2 :: l))
    with (s ++ String c (sep ++ Py.join (String c sep) (s2 :: l))).
  rewrite (tokens_symbol_then _ _ _ Hs Hc), (tokens_app_made _ _ Hsep).
  now rewrite IH.
Qed.

Lemma user_defined_symbols_of_join_witness :
  Answers.user_defined_symbols (Py.join ", " ["BRCA1"; "BRCA2"; "TP63"])
  = ["BRCA1"; "BRCA2"; "TP63"].
Proof.
  apply (user_defined_symbols_of_join ", " ["BRCA1"; "BRCA2"; "TP63"]).
  - reflexivity.
  - repeat constructor.
  - discriminate.
  - reflexivity.
  - repeat constructor.
Defined.

Lemma tokens_nil (text : string) :
  Answers.tokens text = [] <-> Answers.made_of Answers.is_separator text = true.
Proof.
  unfold Answers.tokens, Str.split_at.
  induction text as [|c text IH]; simpl; [split; reflexivity|].
  destruct (Str.pieces Answers.is_separator text) as [p ps].
  destruct (Answers.is_separator c); simpl; [exact IH|].
  split; discriminate.
Qed.

(** X4.  A free text of ASCII characters gives no gene symbol exactly
    when it is made of commas and whitespace only; the validator
    [not_blank] rejects the empty text alone, so it accepts every such text
    that is not empty. *)
Theorem blank_text_gives_no_symbols (text : string) :
  (Str.isascii text = true ->
   (Answers.user_defined_symbols text = []
    <-> Answers.made_of Answers.is_separator text = true))
  /\ (Answers.not_blank text = None <-> text <> "")
  /\ (Str.isascii text = true ->
      text <> "" -> Answers.made_of Answers.is_separator text = true ->
      Answers.not_blank text = None /\ Answers.user_defined_symbols text = []).
Proof.
  assert (Hblank : Answers.not_blank text = None <-> text <> "").
  { unfold Answers.not_blank. destruct (String.eqb_spec text ""); split;
      congruence || discriminate. }
  rewrite user_defined_symbols_tokens. split; [intros _; apply tokens_nil|].
  split; [exact Hblank|]. intros _ Hne Hmade. split; [now apply Hblank|].
  now apply tokens_nil.
Qed.

Lemma blank_text_gives_no_symbols_witness :
  Answers.not_blank " , " = None /\ Answers.user_defined_symbols " , " = [].
Proof.
  apply (proj2 (proj2 (blank_text_gives_no_symbols " , "))).
  - reflexivity.
  - discriminate.
  - reflexivity.
Defined.

(** ** [int] and [str] *)

Lemma more_digits_of_uint (d : Decimal.uint) (acc : Z) :
  Py.more_digits acc (NilEmpty.string_of_uint d)
  = Some (acc * 10 ^ Z.of_N (DecimalPos.Unsigned.usize d)
          + Z.of_N (DecimalPos.Unsigned.of_lu (Decimal.rev d))).
Proof.
  revert acc.
  induction d as [|d IH|d IH|d IH|d IH|d IH|d IH|d IH|d IH|d IH|d IH]; intros acc;
    [simpl; f_equal; lia | ..];
    cbn [NilEmpty.string_of_uint Py.more_digits];
    (match goal with
     | |- context [Py.digit_value ?c] =>
         change (Py.digit_value c) with (Some (Z.of_nat (nat_of_ascii c) - 48))
     end);
    cbn [nat_of_ascii]; rewrite IH; f_equal;
    (match goal with
     | |- context [Decimal.rev (?f d)] =>
         change (Decimal.rev (f d)) with (Decimal.revapp d (f Decimal.Nil));
         rewrite (DecimalPos.Unsigned.of_lu_revapp d (f Decimal.Nil))
     end);
    cbn [DecimalPos.Unsigned.usize DecimalPos.Unsigned.of_lu];
    rewrite N2Z.inj_add, N2Z.inj_mul, N2Z.inj_pow, N2Z.inj_succ, Z.pow_succ_r
      by apply N2Z.is_nonneg;
    simpl Z.of_N; simpl (Z.of_nat _); ring.
Qed.

Lemma unsigned_literal_of_uint (d : Decimal.uint) :
  d <> Decimal.Nil ->
  Py.unsigned_literal (NilEmpty.string_of_uint d) = Some (Z.of_N (Pos.of_uint d)).
Proof.
  intros Hd. rewrite DecimalPos.Unsigned.of_uint_alt.
  transitivity (Py.more_digits 0 (NilEmpty.string_of_uint d)).
  - destruct d; [congruence | reflexivity ..].
  - rewrite more_digits_of_uint. f_equal.
Qed.

Lemma int_of_uint (d : Decimal.uint) :
  d <> Decimal.Nil ->
  Py.int (Some (NilEmpty.string_of_uint d))
  = Py.unsigned_literal (NilEmpty.string_of_uint d).
Proof. intros Hd. destruct d; [congruence | reflexivity ..]. Qed.

Lemma int_str (n : Z) : Py.int (Some (Py.str n)) = Some n.
Proof.
  destruct n as [|p|p]; [reflexivity | |]; unfold Py.str; simpl Z.to_int;
    pose proof (DecimalPos.Unsigned.to_uint_nonnil p) as Hp;
    cbn [NilZero.string_of_int]; unfold NilZero.string_of_uint;
    destruct (Pos.to_uint p) as [|d|d|d|d|d|d|d|d|d|d] eqn:E; try congruence;
    rewrite <- E in *.
  all: try (rewrite (int_of_uint _ Hp), (unsigned_literal_of_uint _ Hp),
              DecimalPos.Unsigned.of_to; reflexivity).
  all: change (Py.int (Some (String "-" (NilEmpty.string_of_uint (Pos.to_uint p)))))
         with (option_map Z.opp (Py.unsigned_literal (NilEmpty.string_of_uint (Pos.to_uint p))));
       rewrite (unsigned_literal_of_uint _ Hp), DecimalPos.Unsigned.of_to; reflexivity.
Qed.

Lemma ids_in_order_of_str (ns : list Z) :
  ids_in_order Py.int (map (fun n => leaf "Id" (Py.str n)) ns) = ns.
Proof.
  induction ns as [|n ns IH]; [reflexivity|].
  cbn [map ids_in_order]. unfold leaf at 1. cbn [text].
  now rewrite int_str, IH.
Qed.

(** X5.  Numbers survive the way from the document to the report: when the
    children of the [IdList] node are [Id] elements whose texts are the
    decimal writings of the numbers [ns], the parser returns [ns], and the
    report prints these texts joined by a comma and a space. *)
Theorem ids_from_document_to_report (root idlist : element) (ns : list Z) :
  first_IdList (children root) = Some idlist ->
  children idlist = map (fun n => leaf "Id" (Py.str n)) ns ->
  get_gene_ids_from_root Py.int root = ns
  /\ gene_ids_str (get_gene_ids_from_root Py.int root)
     = Py.join ", " (map (fun child => match text child with Some t => t | None => "" end)
                       (children idlist)).
Proof.
  intros Hid Hch.
  assert (E : get_gene_ids_from_root Py.int root = ns).
  { unfold get_gene_ids_from_root. rewrite scan_children_first_IdList, Hid, Hch.
    destruct ns as [|n ns]; [reflexivity|].
    change (ids_in_order Py.int (map (fun n => leaf "Id" (Py.str n)) (n :: ns)) = n :: ns).
    apply ids_in_order_of_str. }
  split; [exact E|]. rewrite E, Hch, gene_ids_str_join, map_map. reflexivity.
Qed.

Lemma ids_from_document_to_report_witness :
  get_gene_ids_from_root Py.int
    (Sim.esearch [leaf "Id" "672"; leaf "Id" "-5"; leaf "Id" "0"])
  = [672; -5; 0].
Proof.
  apply (ids_from_document_to_report
           (Sim.esearch [leaf "Id" "672"; leaf "Id" "-5"; leaf "Id" "0"])
           (Node (TagName "IdList") None [leaf "Id" "672"; leaf "Id" "-5"; leaf "Id" "0"])
           [672; -5; 0]); reflexivity.
Defined.

(** ** What the parser reads *)

Lemma ids_in_order_texts (int : option string -> option Z) (l l' : list element) :
  map text l = map text l' -> ids_in_order int l = ids_in_order int l'.
Proof.
  revert l'. induction l as [|n l IH]; intros [|n' l'] E; try discriminate;
    [reflexivity|].
  simpl in E. injection E as En El. simpl. rewrite En, (IH _ El). reflexivity.
Qed.

(** X6.  The parser reads the first [IdList] child of the root and, there,
    the tag of the first child and the texts of the children, nothing else:
    two documents whose first [IdList] nodes agree on these give the same
    result, whatever their other nodes, the tags of the later children and
    the elements below the children are. *)
Theorem parser_reads_first_IdList_only
    (int : option string -> option Z) (fromstring : string -> result element)
    (xml xml' : string) (root root' idlist idlist' : element) :
  fromstring xml = Ok root ->
  fromstring xml' = Ok root' ->
  first_IdList (children root) = Some idlist ->
  first_IdList (children root') = Some idlist' ->
  map text (children idlist) = map text (children idlist') ->
  option_map (fun first => tag_is first "Id") (hd_error (children idlist))
  = option_map (fun first => tag_is first "Id") (hd_error (children idlist')) ->
  get_gene_ids_from_xml int fromstring xml = get_gene_ids_from_xml int fromstring xml'.
Proof.
  intros Hdoc Hdoc' Hid Hid' Htexts Hfirst.
  rewrite (get_gene_ids_of_tree _ _ _ _ Hdoc), (get_gene_ids_of_tree _ _ _ _ Hdoc').
  rewrite !scan_children_first_IdList, Hid, Hid'. f_equal.
  rewrite (ids_in_order_texts int _ _ Htexts).
  destruct (children idlist) as [|first others], (children idlist') as [|first' others'];
    try discriminate; [reflexivity|].
  simpl in Hfirst. injection Hfirst as ->. reflexivity.
Qed.

Lemma parser_reads_first_IdList_only_witness :
  get_gene_ids_from_xml Py.int Sim.fromstring_more Sim.brca1_xml
  = get_gene_ids_from_xml Py.int Sim.fromstring_more Sim.two_lists_xml.
Proof.
  apply (parser_reads_first_IdList_only Py.int Sim.fromstring_more
           Sim.brca1_xml Sim.two_lists_xml
           (Sim.esearch [leaf "Id" "672"]) Sim.two_lists
           (Node (TagName "IdList") None [leaf "Id" "672"])
           (Node (TagName "IdList") None
              [Node (TagName "Id") (Some "672") [leaf "Id" "7"]]));
    reflexivity.
Defined.

Lemma ids_in_order_sound (int : option string -> option Z) (l : list element) (v : Z) :
  In v (ids_in_order int l) -> exists n, In n l /\ int (text n) = Some v.
Proof.
  induction l as [|m l IH]; simpl; [tauto|].
  destruct (int (text m)) as [u|] eqn:E.
  - intros [<-|Hin]; [exists m; split; [now left | exact E]|].
    destruct (IH Hin) as (n & Hn & Hv). exists n. split; [now right | exact Hv].
  - intros Hin. destruct (IH Hin) as (n & Hn & Hv). exists n. split; [now right | exact Hv].
Qed.

Lemma ids_in_order_length (int : option string -> option Z) (l : list element) :
  (List.length (ids_in_order int l) <= List.length l)%nat.
Proof.
  induction l as [|m l IH]; simpl; [lia|].
  destruct (int (text m)); simpl; lia.
Qed.

(** X7.  For every tree, and whatever the texts that [int] accepts are,
    each identifier that the parser returns is the integer that [int]
    reads in the text of a child of the first [IdList] child of the root,
    and the identifiers are no more than these children; without such a
    node there is no identifier. *)
Theorem parser_ids_come_from_children
    (int : option string -> option Z) (root : element) :
  match first_IdList (children root) with
  | Some idlist =>
      (forall v : Z, In v (get_gene_ids_from_root int root) ->
                     exists child, In child (children idlist)
                                   /\ int (text child) = Some v)
      /\ (List.length (get_gene_ids_from_root int root) <= List.length (children idlist))%nat
  | None => get_gene_ids_from_root int root = []
  end.
Proof.
  unfold get_gene_ids_from_root. rewrite scan_children_first_IdList.
  destruct (first_IdList (children root)) as [idlist|]; [|reflexivity].
  destruct (children idlist) as [|first others] eqn:E; [split; [intros v []|simpl; lia]|].
  destruct (tag_is first "Id"); [|split; [intros v [] | simpl; lia]].
  split; [apply ids_in_order_sound | apply ids_in_order_length].
Qed.

Lemma parser_ids_come_from_children_witness :
  exists child,
    In child [Node (TagName "Id") (Some "672") [leaf "Id" "7"]]
    /\ Py.int (text child) = Some 672.
Proof.
  exact (proj1 (parser_ids_come_from_children Py.int Sim.two_lists) 672
           (or_introl eq_refl)).
Defined.

(** ** More on the limiter *)

Local Open Scope Q_scope.

(** X8.  [limit_calls_basic] is [limit_calls] with the default delay: a
    call through a [limit_calls_basic] moves the world, answers and changes
    its timestamp as [wrap] does for the [limit_calls] with the same state,
    and a new [limit_calls_basic] has the state of [limit_calls()]. *)
Theorem basic_call_is_wrap
    {World : Type} `{Clock World} {Args Val : Type}
    (self : Basic.limit_calls_basic World Args Val) (args : Args) (w : World) :
  wrap (Basic.func self) (Runs.to_limit_calls self) args w
  = (fst (fst (Basic.call self args w)),
     Runs.to_limit_calls (snd (fst (Basic.call self args w))),
     snd (Basic.call self args w))
  /\ Basic.func (snd (fst (Basic.call self args w))) = Basic.func self
  /\ Runs.to_limit_calls (Basic.init (Basic.func self)) = init default_delta_time.
Proof.
  unfold wrap, Basic.call, before_call, Runs.to_limit_calls; simpl.
  destruct (Basic.func self args _) as [w2 [v|e]]; simpl; repeat split.
Qed.

(** X9.  When a sleep lasts exactly as long as asked, a call through a
    limiter with timestamp [previous] starts at the later of the present
    time and [previous + delta_time + small_delta_time]: not before, and
    with no more delay than that. *)
Theorem call_starts_at_the_earliest
    {World : Type} `{Clock World}
    (self : limit_calls) (previous : Q) (w : World) :
  Runs.exact_sleep ->
  previous_time self = Some previous ->
  let start := time_time (before_call self w) in
  time_time w <= start
  /\ previous + (delta_time self + small_delta_time self) <= start
  /\ (start == time_time w
      \/ start == previous + (delta_time self + small_delta_time self)).
Proof.
  intros Hexact Hprev. unfold before_call. rewrite Hprev.
  destruct (Qlt_le_dec (time_time w - previous) (delta_time self + small_delta_time self))
    as [Hearly|Hlate].
  - rewrite sleep_if_necessary_early by exact Hearly. cbv zeta.
    pose proof (Hexact (delta_time self + small_delta_time self - (time_time w - previous)) w)
      as He.
    repeat split; [lra | lra | right; lra].
  - rewrite sleep_if_necessary_late by exact Hlate. cbv zeta.
    repeat split; [lra | lra | left; lra].
Qed.

Lemma sim_exact_sleep : Runs.exact_sleep (World := Sim.world).
Proof. intros d w. simpl. reflexivity. Qed.

Lemma call_starts_at_the_earliest_witness :
  let start := time_time (before_call (set_previous_time (init 0.35) 5) (5.1 : Sim.world)) in
  time_time (5.1 : Sim.world) <= start
  /\ 5 + (0.35 + 0.01) <= start
  /\ (start == time_time (5.1 : Sim.world) \/ start == 5 + (0.35 + 0.01)).
Proof.
  exact (call_starts_at_the_earliest (set_previous_time (init 0.35) 5) 5
           (5.1 : Sim.world) sim_exact_sleep eq_refl).
Defined.

Section MoreSessionFacts.
Context {World : Type} `{Clock World} {Args Val : Type}.
Variable func : callable (World := World) Args Val.

Lemma call_until_raise_session (argss : list Args) (self : limit_calls) (w : World) :
  session func self w
    (fst (fst (fst (Runs.call_until_raise func self argss w))))
    (snd (fst (fst (Runs.call_until_raise func self argss w))))
    (snd (fst (Runs.call_until_raise func self argss w))).
Proof.
  revert self w. induction argss as [|args rest IH]; intros self w; simpl.
  - constructor.
  - destruct (wrap func self args w) as [[w1 self1] [v|e]] eqn:E.
    + specialize (IH self1 w1).
      destruct (Runs.call_until_raise func self1 rest w1) as [[[tr self'] w'] r]; simpl in *.
      eapply session_call; [exact E | apply Qle_refl | exact IH].
    + simpl. eapply session_call; [exact E | apply Qle_refl | constructor].
Qed.

(** In a run that the first exception ends, every invocation but the last
    has returned. *)
Lemma call_until_raise_normal (argss : list Args) (self : limit_calls) (w : World)
    (pre post : list invocation) (a b : invocation) :
  fst (fst (fst (Runs.call_until_raise func self argss w))) = (pre ++ a :: b :: post)%list ->
  normal a = true.
Proof.
  revert self w pre. induction argss as [|args rest IH]; intros self w pre; simpl.
  - destruct pre; discriminate.
  - destruct (wrap func self args w) as [[w1 self1] [v|e]] eqn:E.
    + specialize (IH self1 w1).
      destruct (Runs.call_until_raise func self1 rest w1) as [[[tr self'] w'] r]; simpl in *.
      destruct pre as [|p pre]; simpl; intros Htr; injection Htr as Hhead Htail.
      * subst a. now rewrite (observe_of_wrap _ _ _ _ _ _ _ E).
      * exact (IH pre Htail).
    + simpl. destruct pre as [|p [|p' pre]]; discriminate.
Qed.

End MoreSessionFacts.

(** X10.  After any sequence of calls through one limiter, the timestamp
    it holds is the time at which the last call that returned has returned,
    or the timestamp it had at first when none has returned; its
    [delta_time] and [small_delta_time] are as at first. *)
Theorem limiter_state_after_session
    {World : Type} `{Clock World} {Args Val : Type}
    (func : callable (World := World) Args Val)
    (self self' : limit_calls) (w w' : World) (tr : list invocation) :
  session func self w tr self' w' ->
  previous_time self' = Runs.stamp (previous_time self) tr
  /\ delta_time self' = delta_time self
  /\ small_delta_time self' = small_delta_time self.
Proof.
  induction 1 as [|self self1 self' w w1 w2 w' args r tr E _ _ IH];
    [repeat split|].
  destruct IH as (IH1 & IH2 & IH3).
  rewrite IH1, IH2, IH3, (observe_of_wrap _ _ _ _ _ _ _ E).
  apply wrap_inv in E as [_ ->]. unfold Runs.stamp. simpl.
  destruct (returned r); repeat split.
Qed.

Lemma limiter_state_after_session_witness :
  previous_time
    (snd (fst (back_to_back Sim.moody (init 0.35) [true; false; false] (3 : Sim.world))))
  = Some 3.
Proof.
  exact (proj1 (limiter_state_after_session Sim.moody (init 0.35) _ (3 : Sim.world) _ _
                  (back_to_back_session Sim.moody [true; false; false] (init 0.35) 3))).
Defined.

Section FarApart.
Context {World : Type} `{ClockLaws World} {Args Val : Type}.
Variable func : callable (World := World) Args Val.
Hypothesis func_forward : forward func.

Lemma session_far (self self' : limit_calls) (w w' : World) (tr : list invocation) :
  session func self w tr self' w' ->
  forall (mid pre post : list invocation) (a b : invocation),
    tr = (pre ++ a :: mid ++ b :: post)%list ->
    forallb normal (a :: mid) = true ->
    started a + count (S (List.length mid)) * interval self <= started b.
Proof.
  intros Hs mid. induction mid as [|m mid IH]; intros pre post a b Htr Hall.
  - simpl in Hall. apply andb_true_iff in Hall as [Ha _].
    destruct (session_adjacent func func_forward _ _ _ _ _ Hs pre post a b Htr Ha)
      as [H1 H2].
    unfold count. simpl. change (inject_Z 1) with 1. lra.
  - cbn [forallb] in Hall. apply andb_true_iff in Hall as [Ha Hall].
    destruct (session_adjacent func func_forward _ _ _ _ _ Hs pre
                (mid ++ b :: post) a m Htr Ha) as [H1 H2].
    assert (Htr' : tr = ((pre ++ [a]) ++ m :: mid ++ b :: post)%list)
      by (rewrite <- app_assoc; exact Htr).
    specialize (IH (pre ++ [a])%list post m b Htr' Hall).
    cbn [List.length]. rewrite (count_succ (S (List.length mid))). lra.
Qed.

End FarApart.

(** X11.  In a world where a sleep lasts as long as asked at least and the
    clock does not run backwards during a call, a call that comes [k]
    calls after a call starts [k * (delta_time + small_delta_time)] after
    it at the earliest, when the calls from the one to the other have
    returned.  With the delay of the lookup, 0.35 and 0.01, the fourth of
    four calls in a row starts more than one second after the first: no
    second holds more than three starts. *)
Theorem calls_are_far_apart
    {World : Type} `{ClockLaws World} {Args Val : Type}
    (func : callable (World := World) Args Val)
    (self self' : limit_calls) (w w' : World) (tr : list invocation) :
  forward func ->
  session func self w tr self' w' ->
  (forall (mid pre post : list invocation) (a b : invocation),
      tr = (pre ++ a :: mid ++ b :: post)%list ->
      forallb normal (a :: mid) = true ->
      started a + count (S (List.length mid)) * (delta_time self + small_delta_time self)
      <= started b)
  /\ (delta_time self == 0.35 -> small_delta_time self == 0.01 ->
      forall (pre post : list invocation) (a b c d : invocation),
        tr = (pre ++ a :: b :: c :: d :: post)%list ->
        normal a = true -> normal b = true -> normal c = true ->
        started a + 1 < started d).
Proof.
  intros Hf Hs. split.
  - intros mid pre post a b Htr Hall.
    exact (session_far func Hf _ _ _ _ _ Hs mid pre post a b Htr Hall).
  - intros Hd Hsm pre post a b c d Htr Ha Hb Hc.
    pose proof (session_far func Hf _ _ _ _ _ Hs [b; c] pre post a d Htr) as Hfar.
    simpl in Hfar. rewrite Ha, Hb, Hc in Hfar. specialize (Hfar eq_refl).
    unfold interval, count in Hfar. simpl in Hfar.
    change (inject_Z 3) with 3 in Hfar. lra.
Qed.

Lemma calls_are_far_apart_witness :
  let tr :=
    fst (fst (back_to_back Sim.moody (init 0.35) [true; true; true; true] (0 : Sim.world))) in
  let dummy := {| started := 0; finished := 0; normal := false |} in
  started (nth 0 tr dummy) + 1 < started (nth 3 tr dummy).
Proof.
  intros tr dummy.
  refine (proj2 (calls_are_far_apart (H0 := sim_clock_laws) Sim.moody
                   (init 0.35) _ (0 : Sim.world) _ _ sim_moody_forward
                   (back_to_back_session Sim.moody [true; true; true; true] (init 0.35) 0))
            _ _ [] [] (nth 0 tr dummy) (nth 1 tr dummy) (nth 2 tr dummy) (nth 3 tr dummy)
            _ _ _ _); reflexivity.
Defined.

(** ** The report as a run of the limiter *)

Section ReportFacts.
Context {World : Type} `{Clock World} `{Lookup.Network World}.
(** The builtin [int], which the parser applies to the texts. *)
Variable int : option string -> option Z.
Variable fromstring : string -> result element.

Lemma call_until_raise_app {Args Val : Type} (func : callable (World := World) Args Val)
    (l1 l2 : list Args) (self : limit_calls) (w : World) :
  Runs.call_until_raise func self (l1 ++ l2) w =
  let '(tr1, self1, w1, r1) := Runs.call_until_raise func self l1 w in
  match r1 with
  | Ok _ =>
      let '(tr2, self2, w2, r2) := Runs.call_until_raise func self1 l2 w1 in
      ((tr1 ++ tr2)%list, self2, w2, r2)
  | Raise e => (tr1, self1, w1, Raise e)
  end.
Proof.
  revert self w. induction l1 as [|args l1 IH]; intros self w; simpl.
  - destruct (Runs.call_until_raise func self l2 w) as [[[tr2 self2] w2] r2]. reflexivity.
  - destruct (wrap func self args w) as [[w1 self1] [v|e]]; [|reflexivity].
    rewrite IH.
    destruct (Runs.call_until_raise func self1 l1 w1) as [[[tr1 self1'] w1'] [[]|e]];
      [|reflexivity].
    destruct (Runs.call_until_raise func self1' l2 w1') as [[[tr2 self2] w2] r2].
    reflexivity.
Qed.

Lemma print_organisms_as_run (organisms : list string) (gene_symbol : string)
    (column_width : nat) (self : limit_calls) (w : World) :
  let '(w', self', lines, r) :=
    print_organisms int fromstring self organisms gene_symbol column_width w in
  let '(tr, self'', w'', r') :=
    Runs.call_until_raise (Lookup.lookup int fromstring) self
      (map (fun organism => (organism, gene_symbol)) organisms) w in
  w' = w'' /\ self' = self'' /\ r = r'
  /\ (returned r = true -> List.length lines = List.length organisms)
  /\ (returned r = false -> (List.length lines < List.length organisms)%nat).
Proof.
  revert self w. induction organisms as [|organism rest IH]; intros self w; simpl.
  - repeat split; discriminate.
  - unfold Lookup.get_gene_ids_from_gene_symbol.
    destruct (wrap (Lookup.lookup int fromstring) self (organism, gene_symbol) w)
      as [[w1 self1] [gene_ids|e]].
    + specialize (IH self1 w1).
      destruct (print_organisms int fromstring self1 rest gene_symbol column_width w1)
        as [[[w2 self2] lines] r].
      destruct (Runs.call_until_raise (Lookup.lookup int fromstring) self1 _ w1)
        as [[[tr self''] w''] r'].
      destruct IH as (-> & -> & -> & Hok & Hraise).
      repeat split; simpl; intros Hr; [rewrite (Hok Hr); reflexivity|].
      specialize (Hraise Hr). lia.
    + repeat split; simpl; [discriminate | lia].
Qed.

Lemma report_queries_cons (organisms : list string) (gene_symbol : string)
    (rest : list string) :
  Runs.report_queries organisms (gene_symbol :: rest)
  = (map (fun organism => (organism, gene_symbol)) organisms
       ++ Runs.report_queries organisms rest)%list.
Proof. reflexivity. Qed.

Lemma print_gene_info_as_run (organisms gene_symbols : list string)
    (column_width : nat) (self : limit_calls) (w : World) :
  let '(w', self', lines, r) :=
    print_gene_info int fromstring self organisms gene_symbols column_width w in
  let '(tr, self'', w'', r') :=
    Runs.call_until_raise (Lookup.lookup int fromstring) self
      (Runs.report_queries organisms gene_symbols) w in
  w' = w'' /\ self' = self'' /\ r = r'
  /\ (returned r = true ->
      List.length lines = (List.length gene_symbols * S (List.length organisms))%nat)
  /\ (returned r = false ->
      (List.length lines < List.length gene_symbols * S (List.length organisms))%nat).
Proof.
  revert self w. induction gene_symbols as [|gene_symbol rest IH]; intros self w.
  - simpl. repeat split; discriminate.
  - rewrite report_queries_cons, call_until_raise_app. cbn [print_gene_info].
    pose proof (print_organisms_as_run organisms gene_symbol column_width self w) as Ho.
    destruct (print_organisms int fromstring self organisms gene_symbol column_width w)
      as [[[w1 self1] lines] r1].
    destruct (Runs.call_until_raise (Lookup.lookup int fromstring) self
                (map (fun organism => (organism, gene_symbol)) organisms) w)
      as [[[tr1 self1'] w1'] r1'].
    destruct Ho as (<- & <- & <- & Hok & Hraise).
    destruct r1 as [[]|e].
    + specialize (IH self1 w1). specialize (Hok eq_refl).
      destruct (print_gene_info int fromstring self1 organisms rest column_width w1)
        as [[[w2 self2] lines'] r].
      destruct (Runs.call_until_raise (Lookup.lookup int fromstring) self1
                  (Runs.report_queries organisms rest) w1) as [[[tr2 self2'] w2'] r'].
      destruct IH as (-> & -> & -> & Hok' & Hraise').
      repeat split; intros Hr; cbn [List.length]; rewrite length_app, Hok.
      * rewrite (Hok' Hr). lia.
      * specialize (Hraise' Hr). lia.
    + specialize (Hraise eq_refl).
      repeat split; intros Hr; [discriminate|]. cbn [List.length]. nia.
Qed.

End ReportFacts.

Lemma lookup_forward {World : Type} `{Clock World} `{Lookup.Network World}
    (int : option string -> option Z) (fromstring : string -> result element) :
  Runs.steady_network -> forward (Lookup.lookup int fromstring).
Proof.
  intros Hnet [organism gene_symbol] w. unfold Lookup.lookup.
  specialize (Hnet (Lookup.url organism gene_symbol) w).
  destruct (Lookup.requests_get _ w) as [w1 [response|e]]; simpl in *; [|exact Hnet].
  destruct (Lookup.ok response); exact Hnet.
Qed.

Lemma sim_steady_network : Runs.steady_network (World := Sim.world).
Proof. intros u w. simpl. unfold Sim.latency. lra. Qed.

(** X12.  A report is a run of the limiter: [print_gene_info] leaves the
    world, the limiter and the outcome that calling the decorated lookup
    leaves when it is called for each gene symbol in turn and, under it,
    for each organism in turn, up to the first call that raises; no other
    request is made. *)
Theorem report_is_a_run
    {World : Type} `{Clock World} `{Lookup.Network World}
    (int : option string -> option Z) (fromstring : string -> result element)
    (organisms gene_symbols : list string) (column_width : nat)
    (self : limit_calls) (w : World) :
  let report := print_gene_info int fromstring self organisms gene_symbols column_width w in
  let run :=
    Runs.call_until_raise (Lookup.lookup int fromstring) self
      (flat_map (fun gene_symbol => map (fun organism => (organism, gene_symbol)) organisms)
         gene_symbols) w in
  fst (fst (fst report)) = snd (fst run)
  /\ snd (fst (fst report)) = snd (fst (fst run))
  /\ snd report = snd run.
Proof.
  pose proof (print_gene_info_as_run int fromstring organisms gene_symbols column_width self w)
    as Hrun.
  fold (Runs.report_queries organisms gene_symbols). cbv zeta.
  destruct (print_gene_info int fromstring self organisms gene_symbols column_width w)
    as [[[w' self'] lines] r].
  destruct (Runs.call_until_raise (Lookup.lookup int fromstring) self
              (Runs.report_queries organisms gene_symbols) w) as [[[tr self''] w''] r'].
  destruct Hrun as (-> & -> & -> & _). repeat split.
Qed.

(** X13.  A report that comes to its end has printed one line for each
    gene symbol and one for each organism under each gene symbol; a report
    that a lookup ends with an exception has printed fewer lines. *)
Theorem report_line_count
    {World : Type} `{Clock World} `{Lookup.Network World}
    (int : option string -> option Z) (fromstring : string -> result element)
    (organisms gene_symbols : list string) (column_width : nat)
    (self : limit_calls) (w : World) :
  let report := print_gene_info int fromstring self organisms gene_symbols column_width w in
  let lines := snd (fst report) in
  (returned (snd report) = true ->
   List.length lines = (List.length gene_symbols * (1 + List.length organisms))%nat)
  /\ (returned (snd report) = false ->
      (List.length lines < List.length gene_symbols * (1 + List.length organisms))%nat).
Proof.
  pose proof (print_gene_info_as_run int fromstring organisms gene_symbols column_width self w)
    as Hrun.
  cbv zeta.
  destruct (print_gene_info int fromstring self organisms gene_symbols column_width w)
    as [[[w' self'] lines] r].
  destruct (Runs.call_until_raise (Lookup.lookup int fromstring) self
              (Runs.report_queries organisms gene_symbols) w) as [[[tr self''] w''] r'].
  destruct Hrun as (_ & _ & _ & Hok & Hraise). simpl. split; assumption.
Qed.

Lemma report_line_count_witness :
  List.length
    (snd (fst (print_gene_info Py.int Sim.fromstring Lookup.lookup_limiter
                 ["Homo sapiens"] ["BRCA1"; "BRCA1"] 14 (0%Q : Sim.world))))
  = (2 * (1 + 1))%nat
  /\ (List.length
        (snd (fst (print_gene_info Py.int Sim.fromstring Lookup.lookup_limiter
                     ["Homo sapiens"; "Mus musculus"] ["BRCA1"; "BRCA1"] 14
                     (0%Q : Sim.world))))
      < 2 * (1 + 2))%nat.
Proof.
  split.
  - apply (proj1 (report_line_count Py.int Sim.fromstring ["Homo sapiens"] ["BRCA1"; "BRCA1"]
                    14 Lookup.lookup_limiter (0%Q : Sim.world))).
    reflexivity.
  - apply (proj2 (report_line_count Py.int Sim.fromstring ["Homo sapiens"; "Mus musculus"]
                    ["BRCA1"; "BRCA1"] 14 Lookup.lookup_limiter (0%Q : Sim.world))).
    reflexivity.
Defined.

(** X14.  The lookups of a report keep the delay, with no proviso: the
    report ends with the first lookup that raises, so in a world where a
    sleep lasts as long as asked at least and the clock does not run
    backwards during a request, each lookup of a report starts
    [delta_time + small_delta_time] after the return of the lookup before
    it at the earliest. *)
Theorem report_lookups_are_spaced
    {World : Type} `{ClockLaws World} `{Lookup.Network World}
    (int : option string -> option Z) (fromstring : string -> result element)
    (organisms gene_symbols : list string) (column_width : nat)
    (self : limit_calls) (w : World) :
  Runs.steady_network ->
  let report := print_gene_info int fromstring self organisms gene_symbols column_width w in
  let run :=
    Runs.call_until_raise (Lookup.lookup int fromstring) self
      (Runs.report_queries organisms gene_symbols) w in
  (fst (fst (fst report)), snd (fst (fst report)), snd report)
  = (snd (fst run), snd (fst (fst run)), snd run)
  /\ forall (pre post : list invocation) (a b : invocation),
      fst (fst (fst run)) = (pre ++ a :: b :: post)%list ->
      finished a + (delta_time self + small_delta_time self) <= started b
      /\ started a + (delta_time self + small_delta_time self) <= started b.
Proof.
  intros Hnet report run. split.
  - subst report run.
    pose proof (print_gene_info_as_run int fromstring organisms gene_symbols column_width self w)
      as Hrun.
    destruct (print_gene_info int fromstring self organisms gene_symbols column_width w)
      as [[[w' self'] lines] r].
    destruct (Runs.call_until_raise (Lookup.lookup int fromstring) self
                (Runs.report_queries organisms gene_symbols) w) as [[[tr self''] w''] r'].
    destruct Hrun as (-> & -> & -> & _). reflexivity.
  - intros pre post a b Htr. subst run.
    pose proof (call_until_raise_session (Lookup.lookup int fromstring)
                  (Runs.report_queries organisms gene_symbols) self w) as Hs.
    pose proof (call_until_raise_normal (Lookup.lookup int fromstring) _ self w pre post a b Htr)
      as Ha.
    destruct (session_adjacent (Lookup.lookup int fromstring) (lookup_forward int fromstring Hnet)
                _ _ _ _ _ Hs pre post a b Htr Ha) as [Hfin Hst].
    unfold interval in Hfin. split; lra.
Qed.

Lemma report_lookups_are_spaced_witness :
  let tr :=
    fst (fst (fst (Runs.call_until_raise (Lookup.lookup Py.int Sim.fromstring)
                     Lookup.lookup_limiter
                     (Runs.report_queries ["Homo sapiens"; "Mus musculus"] ["BRCA1"])
                     (0 : Sim.world)))) in
  let dummy := {| started := 0; finished := 0; normal := false |} in
  finished (nth 0 tr dummy) + (0.35 + 0.01) <= started (nth 1 tr dummy)
  /\ started (nth 0 tr dummy) + (0.35 + 0.01) <= started (nth 1 tr dummy).
Proof.
  intros tr dummy.
  exact (proj2 (report_lookups_are_spaced (H0 := sim_clock_laws) Py.int Sim.fromstring
                  ["Homo sapiens"; "Mus musculus"] ["BRCA1"] 14 Lookup.lookup_limiter
                  (0 : Sim.world) sim_steady_network)
           [] [] (nth 0 tr dummy) (nth 1 tr dummy) eq_refl).
Defined.

(** X15.  Without organisms the report is the header lines alone: no
    lookup is made, the world and the limiter stay as they are. *)
Theorem report_without_organisms
    {World : Type} `{Clock World} `{Lookup.Network World}
    (int : option string -> option Z) (fromstring : string -> result element)
    (gene_symbols : list string) (column_width : nat)
    (self : limit_calls) (w : World) :
  print_gene_info int fromstring self [] gene_symbols column_width w
  = (w, self, map (fun gene_symbol => "Gene Symbol: " ++ gene_symbol)%string gene_symbols,
     Ok tt).
Proof.
  induction gene_symbols as [|gene_symbol rest IH]; [reflexivity|].
  cbn [print_gene_info print_organisms]. rewrite IH. reflexivity.
Qed.

(** ** The organism column *)

Local Open Scope nat_scope.

Lemma length_append (a b : string) :
  String.length (a ++ b) = String.length a + String.length b.
Proof. induction a as [|c a IH]; simpl; [reflexivity | now rewrite IH]. Qed.

Lemma length_spaces (k : nat) : String.length (String.concat "" (repeat " "%string k)) = k.
Proof.
  induction k as [|k IH]; [reflexivity|].
  cbn [repeat]. rewrite concat_cons, length_append, IH. reflexivity.
Qed.

Lemma ljust_length (s : string) (width : nat) :
  String.length (ljust s width) = Nat.max (String.length s) width.
Proof. unfold ljust. rewrite length_append, length_spaces. lia. Qed.

Lemma fold_max_ge (l : list nat) (x : nat) :
  x <= fold_left Nat.max l x /\ forall y, In y l -> y <= fold_left Nat.max l x.
Proof.
  revert x. induction l as [|z l IH]; intros x; simpl; [split; [lia | tauto]|].
  destruct (IH (Nat.max x z)) as [Hx Hl]. split; [lia|].
  intros y [<-|Hy]; [lia | now apply Hl].
Qed.

(** X16.  The column width that [main] computes aligns the report: for a
    non-empty list of organisms the width is the length of the longest
    name, 50 at most, and every name of the list that is no longer than 50
    characters is padded to that width exactly; for no organism at all the
    computation raises a [ValueError]. *)
Theorem column_width_aligns (organisms : list string) :
  match Main.column_width organisms with
  | Ok width =>
      width <= 50
      /\ (forall organism, In organism organisms ->
                           String.length organism <= 50 ->
                           String.length (ljust organism width) = width)
      /\ (forall organism, In organism organisms ->
                           exists padding, ljust organism width = (organism ++ padding)%string)
  | Raise e => organisms = [] /\ exn_type e = ValueError
  end
  /\ (exists e, Main.column_width [] = Raise e /\ exn_type e = ValueError)
  /\ Main.column_width Main.predefined_organisms = Ok 18.
Proof.
  split; [|split; [eexists; split; reflexivity | reflexivity]].
  unfold Main.column_width, Main.max_of.
  destruct organisms as [|first rest]; [split; reflexivity|].
  cbn [map]. split; [apply Nat.le_min_l|]. split.
  - intros organism Hin Hlen. rewrite ljust_length.
    destruct (fold_max_ge (map String.length rest) (String.length first)) as [Hfirst Hrest].
    assert (Hle : String.length organism
                  <= fold_left Nat.max (map String.length rest) (String.length first)).
    { destruct Hin as [<-|Hin]; [exact Hfirst|]. apply Hrest. now apply in_map. }
    lia.
  - intros organism _. unfold ljust. eexists. reflexivity.
Qed.

Lemma column_width_aligns_witness :
  String.length (ljust "Bos taurus" 18) = 18.
Proof.
  exact (proj1 (proj2 (proj1 (column_width_aligns Main.predefined_organisms)))
           "Bos taurus" ltac:(simpl; tauto) ltac:(simpl; lia)).
Defined.

(** ** The URL of a query *)

Lemma append_inj_l (a x y : string) : (a ++ x = a ++ y -> x = y)%string.
Proof. induction a as [|c a IH]; simpl; [tauto|]. intros E. injection E as E. auto. Qed.

Lemma append_inj_r (a x y : string) : (x ++ a = y ++ a -> x = y)%string.
Proof.
  revert y. induction x as [|c x IH]; intros [|c' y] E; simpl in E.
  - reflexivity.
  - exfalso. apply (f_equal String.length) in E. simpl in E.
    rewrite length_append in E. lia.
  - exfalso. apply (f_equal String.length) in E. simpl in E.
    rewrite length_append in E. lia.
  - injection E as -> E. now rewrite (IH _ E).
Qed.

Lemma append_bracket (g g' x y : string) :
  Answers.free_of (Ascii.eqb "["%char) g = true ->
  Answers.free_of (Ascii.eqb "["%char) g' = true ->
  (g ++ String "[" x = g' ++ String "[" y)%string ->
  g = g' /\ x = y.
Proof.
  revert g'. induction g as [|c g IH]; intros [|c' g'] Hg Hg' E; simpl in *.
  - injection E as ->. split; reflexivity.
  - injection E as <- _. apply andb_true_iff in Hg' as [Hc _]. discriminate.
  - injection E as -> _. apply andb_true_iff in Hg as [Hc _]. discriminate.
  - injection E as -> E.
    apply andb_true_iff in Hg as [_ Hg]. apply andb_true_iff in Hg' as [_ Hg'].
    destruct (IH g' Hg Hg' E) as [-> ->]. split; reflexivity.
Qed.

(** X17.  Two queries whose gene symbols hold no opening bracket have the
    same URL only when they are the same query.  The condition is needed:
    nothing is escaped, so two different queries can share a URL when a
    gene symbol holds the text that joins the two parts. *)
Theorem url_determines_query :
  (forall organism gene_symbol organism' gene_symbol' : string,
      Answers.free_of (Ascii.eqb "["%char) gene_symbol = true ->
      Answers.free_of (Ascii.eqb "["%char) gene_symbol' = true ->
      Lookup.url organism gene_symbol = Lookup.url organism' gene_symbol' ->
      organism = organism' /\ gene_symbol = gene_symbol')
  /\ Lookup.url "z" "x[symbol]+AND+y" = Lookup.url "y[symbol]+AND+z" "x".
Proof.
  split; [|reflexivity].
  intros organism gene_symbol organism' gene_symbol' Hg Hg' E.
  unfold Lookup.url in E. apply append_inj_l in E.
  change ("[symbol]+AND+" ++ organism ++ "[organism]")%string
    with (String "[" ("symbol]+AND+" ++ organism ++ "[organism]"))%string in E.
  change ("[symbol]+AND+" ++ organism' ++ "[organism]")%string
    with (String "[" ("symbol]+AND+" ++ organism' ++ "[organism]"))%string in E.
  apply append_bracket in E as [-> E]; [|assumption..].
  apply append_inj_l, append_inj_r in E. now subst.
Qed.

Lemma url_determines_query_witness :
  "Homo sapiens"%string = "Homo sapiens"%string /\ "BRCA1"%string = "BRCA1"%string.
Proof.
  apply (proj1 url_determines_query "Homo sapiens" "BRCA1" "Homo sapiens" "BRCA1")%string;
    reflexivity.
Defined.

(** ** The entry point *)

(** X18.  From the answers of the questionnaire to the report.  When the
    gene symbols were typed as a free text of ASCII characters, [main]
    prints the report for the chosen organisms and for the texts between
    the commas and whitespace of that text, in a column of 18 characters;
    when they were chosen from the list, for the chosen gene symbols.  When
    an answer is missing, it raises before any lookup. *)
Theorem main_reports_the_selection
    {World : Type} `{Clock World} `{Lookup.Network World}
    (int : option string -> option Z) (fromstring : string -> result element)
    (q_answers : Answers.answers) (self : limit_calls) (w : World) :
  (forall (organisms : list string) (input : Answers.value) (text : string),
      Answers.getitem q_answers "organisms" = Ok (Answers.Choices organisms) ->
      Answers.getitem q_answers "gene_symbol_input" = Ok input ->
      Answers.equals input "predefined" = false ->
      Answers.getitem q_answers "gene_symbols" = Ok (Answers.Text text) ->
      Str.isascii text = true ->
      Main.main int fromstring q_answers self w
      = print_gene_info int fromstring self organisms
          (filter Str.nonempty (Str.split_at Answers.is_separator text)) 18 w)
  /\ (forall organisms gene_symbols : list string,
         Answers.getitem q_answers "organisms" = Ok (Answers.Choices organisms) ->
         Answers.getitem q_answers "gene_symbol_input" = Ok (Answers.Text "predefined") ->
         Answers.getitem q_answers "gene_symbols" = Ok (Answers.Choices gene_symbols) ->
         Main.main int fromstring q_answers self w
         = print_gene_info int fromstring self organisms gene_symbols 18 w)
  /\ (forall e : exn,
         Answers.get_questionnaire_answers q_answers = Raise e ->
         Main.main int fromstring q_answers self w = (w, self, [], Raise e)).
Proof.
  unfold Main.main, Answers.get_questionnaire_answers. split; [|split].
  - intros organisms input text -> -> -> -> _.
    rewrite user_defined_symbols_tokens. reflexivity.
  - intros organisms gene_symbols -> -> ->. reflexivity.
  - intros e E. now rewrite E.
Qed.

Lemma main_reports_the_selection_witness :
  Main.main Py.int Sim.fromstring
    [("organisms", Answers.Choices ["Homo sapiens"]);
     ("gene_symbol_input", Answers.Text "user-defined");
     ("gene_symbols", Answers.Text "BRCA1, BRCA1")]%string
    Lookup.lookup_limiter (0%Q : Sim.world)
  = print_gene_info Py.int Sim.fromstring Lookup.lookup_limiter ["Homo sapiens"]%string
      (filter Str.nonempty (Str.split_at Answers.is_separator "BRCA1, BRCA1")) 18
      (0%Q : Sim.world).
Proof.
  apply (proj1 (main_reports_the_selection Py.int Sim.fromstring
                  [("organisms", Answers.Choices ["Homo sapiens"]);
                   ("gene_symbol_input", Answers.Text "user-defined");
                   ("gene_symbols", Answers.Text "BRCA1, BRCA1")]%string
                  Lookup.lookup_limiter (0%Q : Sim.world))
           ["Homo sapiens"]%string (Answers.Text "user-defined") "BRCA1, BRCA1"%string);
    reflexivity.
Defined.

(** ** Outcomes of the lookup *)

(** X19.  A lookup whose request is answered with a success status returns
    what the parser reads in the tree of the response text, and the limiter
    takes the time after the request as its timestamp; when the text is no
    well-formed document, or when the request itself raises, the exception
    leaves the lookup and the limiter keeps its timestamp. *)
Theorem lookup_outcomes
    {World : Type} `{Clock World} `{Lookup.Network World}
    (int : option string -> option Z) (fromstring : string -> result element)
    (self : limit_calls) (organism gene_symbol : string) (w w1 : World) :
  (forall response : Lookup.response,
      Lookup.requests_get (Lookup.url organism gene_symbol) (before_call self w)
      = (w1, Ok response) ->
      Lookup.ok response = true ->
      Lookup.get_gene_ids_from_gene_symbol int fromstring self organism gene_symbol w
      = match fromstring (Lookup.text response) with
        | Ok root =>
            (w1, set_previous_time self (time_time w1), Ok (get_gene_ids_from_root int root))
        | Raise e => (w1, self, Raise e)
        end)
  /\ (forall e : exn,
         Lookup.requests_get (Lookup.url organism gene_symbol) (before_call self w)
         = (w1, Raise e) ->
         Lookup.get_gene_ids_from_gene_symbol int fromstring self organism gene_symbol w
         = (w1, self, Raise e)).
Proof.
  unfold Lookup.get_gene_ids_from_gene_symbol, wrap, Lookup.lookup. split.
  - intros response -> ->. simpl. unfold get_gene_ids_from_xml.
    destruct (fromstring (Lookup.text response)); reflexivity.
  - intros e ->. reflexivity.
Qed.

Lemma lookup_outcomes_witness :
  Lookup.get_gene_ids_from_gene_symbol Py.int Sim.fromstring Lookup.lookup_limiter
    "Homo sapiens" "BRCA1" (0%Q : Sim.world)
  = ((0 + Sim.latency)%Q,
     set_previous_time Lookup.lookup_limiter (0 + Sim.latency)%Q,
     Ok [672%Z]).
Proof.
  exact (proj1 (lookup_outcomes Py.int Sim.fromstring Lookup.lookup_limiter
                  "Homo sapiens" "BRCA1" (0%Q : Sim.world) (0 + Sim.latency)%Q)
           (Sim.server (Lookup.url "Homo sapiens" "BRCA1")) eq_refl eq_refl).
Defined.
